(** * Consolidation of scan results: a shallow embedding

    This development embeds two programs of the repository:

    - [backend/scripts/update_structure.py], the structure consolidator
      (functions [form_signature], [build_description_map],
      [normalize_action] and [main]);
    - [zap.py], the scan session ([SecurityScanner.run_scan] and the phase
      methods it calls).

    Python values loaded from JSON are modelled by the type [json]; a Python
    [dict] is an association list in insertion order, because [main] scans
    [desc_map.items()] in that order.  A [str] is a [string]; the string
    methods below act on ASCII text as Python's do.  A raised exception is a
    value [Raise e] of the type [result]. *)

From Stdlib Require Import String Ascii List Bool Arith ZArith Lia.
From Stdlib Require Import Permutation Sorted.
Import ListNotations.
Open Scope string_scope.
Open Scope list_scope.
Open Scope nat_scope.

(** ** Exceptions and results *)

Inductive exn : Type :=
| AttributeError
| TypeError
| ValueError
| RequestException
| OtherError (msg : string).

Inductive result (A : Type) : Type :=
| Ok (a : A)
| Raise (e : exn).

Arguments Ok {A} a.
Arguments Raise {A} e.

Definition bind {A B : Type} (r : result A) (k : A -> result B) : result B :=
  match r with
  | Ok a => k a
  | Raise e => Raise e
  end.

Notation "x <- c1 ;; c2" := (bind c1 (fun x => c2))
  (at level 61, c1 at next level, right associativity).

Fixpoint mapM {A B : Type} (f : A -> result B) (l : list A) : result (list B) :=
  match l with
  | [] => Ok []
  | x :: r => y <- f x ;; ys <- mapM f r ;; Ok (y :: ys)
  end.

(** ** Python [str] methods *)

Definition char_code (c : ascii) : nat := nat_of_ascii c.

(** [str.isspace] on ASCII: TAB..CR, FS..US and the space. *)
Definition is_space (c : ascii) : bool :=
  let n := char_code c in
  ((9 <=? n) && (n <=? 13)) || ((28 <=? n) && (n <=? 32)).

Definition is_lower (c : ascii) : bool :=
  let n := char_code c in (97 <=? n) && (n <=? 122).

Definition is_upper (c : ascii) : bool :=
  let n := char_code c in (65 <=? n) && (n <=? 90).

Definition is_alpha (c : ascii) : bool := is_lower c || is_upper c.

Definition is_digit (c : ascii) : bool :=
  let n := char_code c in (48 <=? n) && (n <=? 57).

Definition upper_char (c : ascii) : ascii :=
  if is_lower c then ascii_of_nat (char_code c - 32) else c.

Definition lower_char (c : ascii) : ascii :=
  if is_upper c then ascii_of_nat (char_code c + 32) else c.

Fixpoint map_string (f : ascii -> ascii) (s : string) : string :=
  match s with
  | EmptyString => EmptyString
  | String c t => String (f c) (map_string f t)
  end.

(** [s.upper()] and [s.lower()] *)
Definition upper (s : string) : string := map_string upper_char s.
Definition lower (s : string) : string := map_string lower_char s.

(** [s.lstrip(chars)] for the set of characters accepted by [p] *)
Fixpoint lstrip_by (p : ascii -> bool) (s : string) : string :=
  match s with
  | EmptyString => EmptyString
  | String c t => if p c then lstrip_by p t else s
  end.

Fixpoint rstrip_by (p : ascii -> bool) (s : string) : string :=
  match s with
  | EmptyString => EmptyString
  | String c t =>
      match rstrip_by p t with
      | EmptyString => if p c then EmptyString else String c EmptyString
      | t' => String c t'
      end
  end.

(** [s.strip()] *)
Definition strip (s : string) : string := rstrip_by is_space (lstrip_by is_space s).

(** [s.startswith(p)] *)
Definition startswith (s p : string) : bool := String.prefix p s.

(** [s.endswith(suf)] *)
Fixpoint endswith (s suf : string) : bool :=
  (s =? suf)%string ||
  match s with
  | EmptyString => false
  | String _ t => endswith t suf
  end.

(** [s[:-1]] *)
Fixpoint drop_last (s : string) : string :=
  match s with
  | EmptyString => EmptyString
  | String _ EmptyString => EmptyString
  | String c t => String c (drop_last t)
  end.

(** [c in s] *)
Fixpoint contains (c : ascii) (s : string) : bool :=
  match s with
  | EmptyString => false
  | String x t => (x =? c)%char || contains c t
  end.

(** [s.replace(c, "")] for a single character [c] satisfying [p] *)
Fixpoint remove_chars (p : ascii -> bool) (s : string) : string :=
  match s with
  | EmptyString => EmptyString
  | String c t => if p c then remove_chars p t else String c (remove_chars p t)
  end.

(** [s.partition(c)] for a single character: the text before the first [c]
    and the text after it, or [None] when [c] does not occur ([s.find(c) < 0]). *)
Fixpoint partition_char (c : ascii) (s : string) : option (string * string) :=
  match s with
  | EmptyString => None
  | String x t =>
      if (x =? c)%char then Some (EmptyString, t)
      else match partition_char c t with
           | Some (a, b) => Some (String x a, b)
           | None => None
           end
  end.

(** The longest prefix whose characters all fail [p], and the rest. *)
Fixpoint break_at (p : ascii -> bool) (s : string) : string * string :=
  match s with
  | EmptyString => (EmptyString, EmptyString)
  | String c t =>
      if p c then (EmptyString, s)
      else let '(a, b) := break_at p t in (String c a, b)
  end.

Fixpoint forall_chars (p : ascii -> bool) (s : string) : bool :=
  match s with
  | EmptyString => true
  | String c t => p c && forall_chars p t
  end.

(** [(s[:i+1], s[i+1:])] for [i = s.rfind("/")]; the first component is empty
    when [s] has no ["/"]. *)
Fixpoint rsplit_slash (s : string) : string * string :=
  match s with
  | EmptyString => (EmptyString, EmptyString)
  | String c t =>
      let '(h, r) := rsplit_slash t in
      match h with
      | EmptyString =>
          if (c =? "/")%char then (String c EmptyString, r)
          else (EmptyString, String c r)
      | _ => (String c h, r)
      end
  end.

(** ** [urllib.parse.urlparse]

    The library function is outside the repository; it is modelled after
    CPython's [urlsplit] and [urlparse] on [str] arguments.  The validation
    of a network location that contains a bracket (IPv6 literals), which
    raises [ValueError] on failure, is the parameter [bracketed_netloc_ok]. *)

Record ParseResult : Type := mkParseResult {
  scheme : string;
  netloc : string;
  path : string;
  params : string;
  query : string;
  fragment : string
}.

Definition is_c0_or_space (c : ascii) : bool := char_code c <=? 32.

Definition is_tab_or_newline (c : ascii) : bool :=
  let n := char_code c in (n =? 9) || (n =? 10) || (n =? 13).

Definition is_scheme_char (c : ascii) : bool :=
  is_alpha c || is_digit c ||
  (c =? "+")%char || (c =? "-")%char || (c =? ".")%char.

Definition is_netloc_delim (c : ascii) : bool :=
  (c =? "/")%char || (c =? "?")%char || (c =? "#")%char.

Definition uses_params : list string :=
  [""; "ftp"; "hdl"; "prospero"; "http"; "imap"; "https"; "shttp"; "rtsp";
   "rtspu"; "sip"; "sips"; "mms"; "sftp"; "tel"].

Definition first_char_alpha (s : string) : bool :=
  match s with
  | EmptyString => false
  | String c _ => is_alpha c
  end.

(** The scheme step of [urlsplit]: [url[:i]] is a scheme when [i > 0], the
    first character is a letter and every character is a scheme character. *)
Definition split_scheme (url : string) : string * string :=
  match partition_char ":" url with
  | Some (pre, rest) =>
      if first_char_alpha pre && forall_chars is_scheme_char pre
      then (lower pre, rest)
      else (EmptyString, url)
  | None => (EmptyString, url)
  end.

(** [_splitnetloc(url, 2)] when [url[:2] == "//"] *)
Definition split_netloc (url : string) : string * string :=
  match url with
  | String "/" (String "/" t) => break_at is_netloc_delim t
  | _ => (EmptyString, url)
  end.

Definition split_on (c : ascii) (s : string) : string * string :=
  match partition_char c s with
  | Some (a, b) => (a, b)
  | None => (s, EmptyString)
  end.

(** [_splitparams] *)
Definition split_params (url : string) : string * string :=
  let '(h, t) := rsplit_slash url in
  match partition_char ";" t with
  | Some (a, b) => ((h ++ a)%string, b)
  | None => (url, EmptyString)
  end.

(** ** Python dicts

    A [dict] keeps its keys in insertion order: assigning to an existing key
    replaces the value in place, assigning to a new key appends it. *)

Definition dict (V : Type) : Type := list (string * V).

Fixpoint dict_get {V : Type} (k : string) (d : dict V) : option V :=
  match d with
  | [] => None
  | (k', v) :: r => if (k' =? k)%string then Some v else dict_get k r
  end.

(** [k in d] *)
Definition dict_mem {V : Type} (k : string) (d : dict V) : bool :=
  match dict_get k d with
  | Some _ => true
  | None => false
  end.

(** [d[k] = v] *)
Fixpoint dict_set {V : Type} (k : string) (v : V) (d : dict V) : dict V :=
  match d with
  | [] => [(k, v)]
  | (k', v') :: r =>
      if (k' =? k)%string then (k', v) :: r else (k', v') :: dict_set k v r
  end.

(** [d.setdefault(k, v)] *)
Definition dict_setdefault {V : Type} (k : string) (v : V) (d : dict V) : dict V :=
  if dict_mem k d then d else dict_set k v d.

(** [d.get(k, default)] *)
Definition dict_get_default {V : Type} (k : string) (default : V) (d : dict V) : V :=
  match dict_get k d with
  | Some v => v
  | None => default
  end.

(** ** JSON values as [json.load] returns them *)

#[warnings="-register-all"]
Inductive json : Type :=
| JNull
| JBool (b : bool)
| JNum (z : Z)
| JStr (s : string)
| JList (l : list json)
| JDict (d : list (string * json)).

(** Python truth value: [None], [False], [0], [""], [[]] and [{}] are false. *)
Definition truthy (j : json) : bool :=
  match j with
  | JNull => false
  | JBool b => b
  | JNum z => negb (z =? 0)%Z
  | JStr s => negb (s =? "")%string
  | JList l => match l with [] => false | _ => true end
  | JDict d => match d with [] => false | _ => true end
  end.

(** [x or y] *)
Definition py_or (x y : json) : json := if truthy x then x else y.

(** [d.get(k)] *)
Definition py_get (d : dict json) (k : string) : json :=
  dict_get_default k JNull d.

(** A method call [j.get(...)] needs a dict. *)
Definition as_dict (j : json) : result (dict json) :=
  match j with
  | JDict d => Ok d
  | _ => Raise AttributeError
  end.

Fixpoint chars_of (s : string) : list json :=
  match s with
  | EmptyString => []
  | String c t => JStr (String c EmptyString) :: chars_of t
  end.

(** [for x in j]: a list yields its items, a str its characters, a dict its
    keys; anything else is not iterable. *)
Definition py_iter (j : json) : result (list json) :=
  match j with
  | JList l => Ok l
  | JStr s => Ok (chars_of s)
  | JDict d => Ok (map (fun kv => JStr (fst kv)) d)
  | _ => Raise TypeError
  end.

(** [len(j)] *)
Definition py_len (j : json) : result nat :=
  match j with
  | JList l => Ok (List.length l)
  | JStr s => Ok (String.length s)
  | JDict d => Ok (List.length d)
  | _ => Raise TypeError
  end.

(** ** Form signatures *)

Definition triple : Type := string * string * bool.

Definition signature : Type := string * string * list triple.

Definition bool_leb (a b : bool) : bool := negb a || b.

(** Python's tuple order: the first differing component decides. *)
Definition triple_leb (x y : triple) : bool :=
  let '(n1, t1, r1) := x in
  let '(n2, t2, r2) := y in
  if (n1 =? n2)%string
  then (if (t1 =? t2)%string then bool_leb r1 r2 else String.leb t1 t2)
  else String.leb n1 n2.

Fixpoint insert_sorted (x : triple) (l : list triple) : list triple :=
  match l with
  | [] => [x]
  | y :: r => if triple_leb x y then x :: l else y :: insert_sorted x r
  end.

(** [sorted(l)]: the order on triples is total and antisymmetric, so the
    sorted list does not depend on the sorting algorithm. *)
Definition sorted (l : list triple) : list triple :=
  fold_right insert_sorted [] l.

Definition triple_eq_dec (x y : triple) : {x = y} + {x <> y}.
Proof. repeat decide equality. Defined.

Definition signature_eq_dec (x y : signature) : {x = y} + {x <> y}.
Proof.
  decide equality.
  - apply (list_eq_dec triple_eq_dec).
  - decide equality; apply string_dec.
Defined.

(** [sig in seen] *)
Definition sig_in (s : signature) (seen : list signature) : bool :=
  if in_dec signature_eq_dec s seen then true else false.

(** The receiver of [.strip()] must be a str. *)
Definition str_strip (j : json) : result string :=
  match j with
  | JStr s => Ok (strip s)
  | _ => Raise AttributeError
  end.

Definition str_upper_strip (j : json) : result string :=
  match j with
  | JStr s => Ok (strip (upper s))
  | _ => Raise AttributeError
  end.

Definition input_triple (inp : json) : result triple :=
  d <- as_dict inp ;;
  n <- str_strip (py_or (py_get d "name") (JStr "")) ;;
  t <- str_strip (py_or (py_get d "type") (JStr "")) ;;
  Ok (n, t, truthy (py_get d "required")).

(** The generator inside [sorted(...)]: one triple per input, in order. *)
Definition input_triples (d : dict json) : result (list triple) :=
  inputs <- py_iter (py_or (py_get d "inputs") (JList [])) ;;
  mapM input_triple inputs.

Definition form_signature (form : json) : result signature :=
  d <- as_dict form ;;
  action <- str_strip (dict_get_default "action" (JStr "") d) ;;
  method <- str_upper_strip (py_or (py_get d "method") (JStr "")) ;;
  ts <- input_triples d ;;
  Ok (action, method, sorted ts).

(** ** [zap.py]: the scan session and its environment

    The scan engine, the HTTP client, the HTML parser and the file system
    are outside the program.  Every call to them is recorded in the trace of
    the scanner and answered by the environment [W], which sees the calls
    made so far; an answer is a value or a raised exception. *)

Inductive call : Type :=
| HttpGet (url : string)
| ZapNewContext (name : string)
| ZapIncludeInContext (name regex : string)
| ZapSpiderScan (url : string)
| ZapSpiderStatus (scan_id : string)
| ZapSpiderResults (scan_id : string)
| ZapAscanScan (url : string)
| ZapAscanStatus (scan_id : string)
| ZapCoreAlerts
| WriteFile (name : string) (data : json).

(** A tag as BeautifulSoup presents it: its attributes. *)
Definition tag : Type := dict string.

Record html_form : Type := mkHtmlForm {
  form_tag : tag;
  input_tags : list tag
}.

(** An HTTP response: its status code and the forms that
    [BeautifulSoup(response.text, 'html.parser').find_all('form')] yields,
    or the exception raised while parsing. *)
Record response : Type := mkResponse {
  status_code : Z;
  page_forms : result (list html_form)
}.

Record world : Type := mkWorld {
  requests_get : list call -> string -> result response;
  zap_new_context : list call -> string -> result string;
  zap_include_in_context : list call -> string -> string -> result unit;
  zap_spider_scan : list call -> string -> result string;
  zap_spider_status : list call -> string -> result string;
  zap_spider_results : list call -> string -> result (list string);
  zap_ascan_scan : list call -> string -> result string;
  zap_ascan_status : list call -> string -> result string;
  zap_core_alerts : list call -> result (list (dict json));
  write_file : list call -> string -> json -> result unit
}.

Inductive level : Type := INFO | WARNING | ERROR.

Inductive log_message : Type :=
| StartingScan (url : string)
| ValidatingURL (url : string)
| URLValid
| URLStatus (code : Z)
| ErrorAccessingURL (e : exn)
| URLValueError
| StartingDiscovery
| SpiderProgress (progress : string)
| Discovered (url : string)
| ActiveScanProgress (progress : string)
| DiscoveryCompleted (endpoints vulnerabilities : nat)
| DiscoveryError (e : exn)
| AnalyzeError (url : string) (e : exn)
| StartingSubdomains
| FoundSubdomain (name : string)
| SubdomainsCompleted (n : nat)
| SubdomainsError (e : exn)
| StartingStructure
| StructureCompleted (n : nat)
| StructureError (e : exn)
| SaveError (filename : string) (e : exn)
| ScanCompleted.

(** The [SecurityScanner] object together with the log it writes and the
    trace of its external calls (most recent first).  The two Python sets are
    lists without repetition, in insertion order. *)
Record scanner : Type := mkScanner {
  target_url : string;
  output_dir : string;
  discovered_endpoints : list string;
  subdomains : list string;
  forms : list json;
  attack_surfaces : list json;
  log : list (level * log_message);
  trace : list call
}.

(** The result of running a method: it returns, it raises, or a polling
    loop is still running when the fuel is spent. *)
Inductive run (A : Type) : Type :=
| Done (a : A) (s : scanner)
| Raised (e : exn) (s : scanner)
| Polling.

Arguments Done {A} a s.
Arguments Raised {A} e s.
Arguments Polling {A}.

Definition M (A : Type) : Type := scanner -> run A.

Definition ret {A : Type} (a : A) : M A := fun s => Done a s.

Definition raise {A : Type} (e : exn) : M A := fun s => Raised e s.

Definition mbind {A B : Type} (m : M A) (k : A -> M B) : M B :=
  fun s =>
    match m s with
    | Done a s' => k a s'
    | Raised e s' => Raised e s'
    | Polling => Polling
    end.

Notation "x <~ c1 ;; c2" := (mbind c1 (fun x => c2))
  (at level 61, c1 at next level, right associativity).
Notation "c1 ;;; c2" := (mbind c1 (fun _ => c2))
  (at level 61, right associativity).

(** [try: body except Exception as e: handler(e)] *)
Definition try_except {A : Type} (body : M A) (handler : exn -> M A) : M A :=
  fun s =>
    match body s with
    | Done a s' => Done a s'
    | Raised e s' => handler e s'
    | Polling => Polling
    end.

Fixpoint for_each {A : Type} (l : list A) (body : A -> M unit) : M unit :=
  match l with
  | [] => ret tt
  | x :: r => body x ;;; for_each r body
  end.

Definition get_state : M scanner := fun s => Done s s.

(** The scanner after one more log record. *)
Definition with_log (lv : level) (m : log_message) (s : scanner) : scanner :=
  mkScanner (target_url s) (output_dir s) (discovered_endpoints s)
    (subdomains s) (forms s) (attack_surfaces s)
    (log s ++ [(lv, m)]) (trace s).

Definition logger (lv : level) (m : log_message) : M unit :=
  fun s => Done tt (with_log lv m s).

Definition set_add (x : string) (l : list string) : list string :=
  if in_dec string_dec x l then l else l ++ [x].

Definition add_endpoint_url (url : string) : M unit :=
  fun s =>
    Done tt (mkScanner (target_url s) (output_dir s)
               (set_add url (discovered_endpoints s))
               (subdomains s) (forms s) (attack_surfaces s) (log s) (trace s)).

Definition add_subdomain (name : string) : M unit :=
  fun s =>
    Done tt (mkScanner (target_url s) (output_dir s) (discovered_endpoints s)
               (set_add name (subdomains s)) (forms s) (attack_surfaces s)
               (log s) (trace s)).

Definition append_form (f : json) : M unit :=
  fun s =>
    Done tt (mkScanner (target_url s) (output_dir s) (discovered_endpoints s)
               (subdomains s) (forms s ++ [f]) (attack_surfaces s)
               (log s) (trace s)).

Definition append_attack_surface (a : json) : M unit :=
  fun s =>
    Done tt (mkScanner (target_url s) (output_dir s) (discovered_endpoints s)
               (subdomains s) (forms s) (attack_surfaces s ++ [a])
               (log s) (trace s)).

(** An external call: it enters the trace and the environment answers. *)
Definition external {A : Type} (c : call) (answer : list call -> result A) : M A :=
  fun s =>
    let s' := mkScanner (target_url s) (output_dir s) (discovered_endpoints s)
                (subdomains s) (forms s) (attack_surfaces s) (log s)
                (c :: trace s) in
    match answer (trace s) with
    | Ok a => Done a s'
    | Raise e => Raised e s'
    end.

Definition lift {A : Type} (r : result A) : M A :=
  match r with
  | Ok a => ret a
  | Raise e => raise e
  end.

(** [int(s)] for a str: surrounding whitespace, an optional sign, and
    decimal digits that single underscores may separate. *)
Fixpoint digits_value (acc : Z) (after_digit : bool) (s : string) : option Z :=
  match s with
  | EmptyString => if after_digit then Some acc else None
  | String c t =>
      if is_digit c
      then digits_value (10 * acc + Z.of_nat (char_code c - 48))%Z true t
      else if (c =? "_")%char && after_digit then digits_value acc false t
      else None
  end.

Definition py_int (s : string) : result Z :=
  let body := strip s in
  let parsed :=
    match body with
    | String "-" t => option_map Z.opp (digits_value 0 false t)
    | String "+" t => digits_value 0 false t
    | _ => digits_value 0 false body
    end in
  match parsed with
  | Some z => Ok z
  | None => Raise ValueError
  end.

(** ** The file system and the output of the consolidator

    The file system maps a path to a file; a file holds a JSON document or
    text that [json.load] rejects.  Writing is assumed to succeed. *)

Inductive file : Type :=
| FileJson (j : json)
| FileText.

Definition filesystem : Type := dict file.

Record arguments : Type := mkArguments {
  arg_structure : string;
  arg_endpoints : string;
  arg_backup : bool
}.

(** What [main] prints. *)
Inductive message : Type :=
| StructureNotFound (p : string)
| EndpointsNotFound (p : string)
| Loaded (n : nat) (p : string)
| Removed (duplicates unique : nat)
| BackupSaved (p : string)
| UpdatedSaved (p : string).

(** The observable outcome of one run: the files, the printed lines and the
    exit status of the interpreter (0 when [main] returns, 1 when an
    exception escapes it). *)
Record outcome : Type := mkOutcome {
  out_files : filesystem;
  out_printed : list message;
  out_status : Z
}.

(** [os.path.exists(p)] *)
Definition path_exists (fs : filesystem) (p : string) : bool := dict_mem p fs.

Definition load_json (fs : filesystem) (p : string) : result json :=
  match dict_get p fs with
  | Some (FileJson j) => Ok j
  | Some FileText => Raise ValueError
  | None => Raise (OtherError "FileNotFoundError")
  end.

Definition save_json (fs : filesystem) (p : string) (data : json) : filesystem :=
  dict_set p (FileJson data) fs.

Definition uncaught (fs : filesystem) (printed : list message) : outcome :=
  mkOutcome fs printed 1.

(** ** Example data

    The catalogs, arguments and environment of the concrete runs.  The
    validator [accept_brackets] accepts every bracketed network location;
    no URL below contains a bracket. *)

Definition user_input : json :=
  JDict [("name", JStr "user"); ("type", JStr "text"); ("required", JBool true)].

Definition login_form : json :=
  JDict [("action", JStr "/login"); ("method", JStr "POST");
         ("inputs", JList [user_input])].

Definition login_form_absolute : json :=
  JDict [("action", JStr "http://t/login/"); ("method", JStr "post");
         ("inputs", JList [user_input])].

Definition login_surfaces : json :=
  JDict [("attack_surfaces",
          JList [JDict [("url", JStr "http://t/login");
                        ("description", JStr "SQLi risk")]])].

Definition login_kept_first : json :=
  JDict [("action", JStr "/login"); ("method", JStr "POST");
         ("inputs", JList [user_input]); ("feedback", JStr "SQLi risk")].

Definition login_kept_second : json :=
  JDict [("action", JStr "/login"); ("method", JStr "post");
         ("inputs", JList [user_input]); ("feedback", JStr "SQLi risk")].

Definition double_slash_catalog : list json :=
  [JDict [("action", JStr "a//"); ("method", JStr "get"); ("inputs", JList [])]].

Definition double_slash_first_run : list json :=
  [JDict [("action", JStr "/a/"); ("method", JStr "get"); ("inputs", JList []);
          ("feedback", JStr "")]].

Definition double_slash_second_run : list json :=
  [JDict [("action", JStr "/a"); ("method", JStr "get"); ("inputs", JList []);
          ("feedback", JStr "")]].

Definition structure_only : filesystem :=
  [("scan_results/structure.json", FileJson (JDict []))].

Definition accept_brackets : string -> bool := fun _ => true.

Definition two_surfaces : dict json :=
  [("attack_surfaces",
    JList [JDict [("url", JStr "http://t/a"); ("description", JStr "first")];
           JDict [("url", JStr "http://t/a/"); ("description", JStr "second")]])].

Definition search_form : json :=
  JDict [("action", JStr "/search"); ("method", JStr "get");
         ("inputs", JList [JDict [("name", JStr "q"); ("type", JStr "text")]]);
         ("id", JStr "top-search")].

Definition repeated_catalog : list json :=
  [login_form; search_form; login_form; search_form].

Definition repeated_catalog_output : list json :=
  [JDict [("action", JStr "/login"); ("method", JStr "POST");
          ("inputs", JList [user_input]); ("feedback", JStr "")];
   JDict [("action", JStr "/search"); ("method", JStr "get");
          ("inputs", JList [JDict [("name", JStr "q"); ("type", JStr "text")]]);
          ("id", JStr "top-search"); ("feedback", JStr "")]].

Definition user_then_password : dict json :=
  [("action", JStr "/login"); ("method", JStr "post");
   ("inputs",
    JList [JDict [("name", JStr "user"); ("type", JStr "text")];
           JDict [("name", JStr "pw"); ("type", JStr "password");
                  ("required", JBool true)]])].

Definition password_then_user : dict json :=
  [("action", JStr "/login"); ("method", JStr "post");
   ("inputs",
    JList [JDict [("name", JStr "pw"); ("type", JStr "password");
                  ("required", JBool true)];
           JDict [("name", JStr "user"); ("type", JStr "text")]])].

Definition annotated_catalog : list json :=
  [JDict [("action", JStr "/login"); ("method", JStr "POST");
          ("inputs", JList [user_input]); ("feedback", JStr "SQLi risk")];
   JDict [("action", JStr "/search"); ("method", JStr "get");
          ("inputs", JList [JDict [("name", JStr "q"); ("type", JStr "text")]]);
          ("id", JStr "top-search"); ("feedback", JStr "")]].

Definition default_arguments : arguments :=
  mkArguments "scan_results/structure.json" "scan_results/endpoints.json" false.

(** [SecurityScanner(target_url, output_dir)] *)
Definition new_scanner (target out_dir : string) : scanner :=
  mkScanner target out_dir [] [] [] [] [] [].

Definition spider_failure : exn := OtherError "spider status unavailable".

(** Every page answers 200 with no form; the status call of the spider
    raises; the active scan, if asked, would report 100 at once. *)
Definition failing_spider : world :=
  mkWorld
    (fun _ _ => Ok (mkResponse 200 (Ok [])))
    (fun _ _ => Ok "1")
    (fun _ _ _ => Ok tt)
    (fun _ _ => Ok "0")
    (fun _ _ => Raise spider_failure)
    (fun _ _ => Ok [])
    (fun _ _ => Ok "0")
    (fun _ _ => Ok "100")
    (fun _ => Ok [])
    (fun _ _ _ => Ok tt).

(** ** Relations between two states of a scanner *)

(** The method [m] relates the state it starts in to the state it ends in. *)
Definition keeps (R : scanner -> scanner -> Prop) {A : Type} (m : M A) : Prop :=
  forall s,
    match m s with
    | Done _ s' | Raised _ s' => R s s'
    | Polling => True
    end.

(** Nothing was collected: the target, the output directory and the four
    collections are the same. *)
Definition same_collections (s s' : scanner) : Prop :=
  target_url s' = target_url s /\
  output_dir s' = output_dir s /\
  discovered_endpoints s' = discovered_endpoints s /\
  subdomains s' = subdomains s /\
  forms s' = forms s /\
  attack_surfaces s' = attack_surfaces s.

(** Nothing was removed: the log, the trace and the two lists are extended,
    the two sets only gain members. *)
Definition only_grows (s s' : scanner) : Prop :=
  target_url s' = target_url s /\
  output_dir s' = output_dir s /\
  incl (discovered_endpoints s) (discovered_endpoints s') /\
  incl (subdomains s) (subdomains s') /\
  (exists l, forms s' = forms s ++ l) /\
  (exists l, attack_surfaces s' = attack_surfaces s ++ l) /\
  (exists l, log s' = log s ++ l) /\
  (exists l, trace s' = l ++ trace s).

(** ** [services.py]: [execute]

    [shlex.split] and [subprocess.run] are outside the program: [split]
    answers with the argument list or with the message of the [ValueError]
    it raises, [run] sees the argument lists run so far and answers with the
    completed process, a timeout or the message of another exception.  The
    progress lines that [execute] prints are left out. *)

Record completed_process : Type := mkCompleted {
  returncode : Z;
  stdout : string;
  stderr : string
}.

Inductive split_outcome : Type :=
| Split (args : list string)
| SplitError (message : string).

Inductive subprocess_outcome : Type :=
| Completed (p : completed_process)
| TimeoutExpired
| SubprocessError (message : string).

(** [curl_command and curl_command.strip().startswith("curl")] *)
Definition is_curl (curl_command : string) : bool :=
  negb (curl_command =? "")%string && startswith (strip curl_command) "curl".

Definition failure (error : string) (status : Z) : json :=
  JDict [("success", JBool false); ("error", JStr error);
         ("status_code", JNum status)].

Definition invalid_command : json :=
  failure "Invalid curl command. Command must start with 'curl'." (-1).

(** The result recorded for a command that passed the check. *)
Definition run_result (split : string -> split_outcome)
    (run : list (list string) -> list string -> subprocess_outcome)
    (history : list (list string)) (curl_command : string) : json :=
  match split curl_command with
  | SplitError message =>
      failure ("Error executing curl command: " ++ message) (-1)
  | Split args =>
      match run history args with
      | Completed p =>
          if (returncode p =? 0)%Z
          then JDict [("success", JBool true); ("output", JStr (strip (stdout p)));
                      ("status_code", JNum 0)]
          else failure (strip (stderr p)) (returncode p)
      | TimeoutExpired =>
          failure "Command execution timed out after 30 seconds" (-1)
      | SubprocessError message =>
          failure ("Error executing curl command: " ++ message) (-1)
      end
  end.

(** [execute(curl)]: the results, and the argument lists that were run
    (most recent first). *)
Fixpoint execute (split : string -> split_outcome)
    (run : list (list string) -> list string -> subprocess_outcome)
    (curl : list string) (history : list (list string))
    : list json * list (list string) :=
  match curl with
  | [] => ([], history)
  | curl_command :: rest =>
      if negb (is_curl curl_command)
      then
        let '(results, h) := execute split run rest history in
        (invalid_command :: results, h)
      else
        let result := run_result split run history curl_command in
        let history :=
          match split curl_command with
          | Split args => args :: history
          | SplitError _ => history
          end in
        let '(results, h) := execute split run rest history in
        (result :: results, h)
  end.

(** The argument lists that [execute] hands to [subprocess.run], in order. *)
Definition commands_run (split : string -> split_outcome) (curl : list string)
    : list (list string) :=
  flat_map
    (fun c =>
       if is_curl c
       then match split c with Split args => [args] | SplitError _ => [] end
       else [])
    curl.

(** A result record reports success exactly with the status code 0. *)
Definition well_formed_result (r : json) : Prop :=
  exists d b code,
    r = JDict d /\ dict_get "success" d = Some (JBool b) /\
    dict_get "status_code" d = Some (JNum code) /\
    (b = true <-> code = 0%Z).

(** ** Example data for the command line program and the scan session *)

Definition backup_arguments : arguments :=
  mkArguments "scan_results/structure.json" "scan_results/endpoints.json" true.

Definition scan_results_files : filesystem :=
  [("scan_results/structure.json",
    FileJson (JDict [("target", JStr "http://t");
                     ("forms", JList repeated_catalog)]));
   ("scan_results/endpoints.json", FileJson login_surfaces)].

Definition unreadable_structure : filesystem :=
  [("scan_results/structure.json", FileText);
   ("scan_results/endpoints.json", FileJson (JDict []))].

Definition suffix_index : dict json :=
  [("/other", JStr ""); ("/api/login", JStr "Weak auth"); ("/login", JStr "")].

Definition login_page : list html_form :=
  [mkHtmlForm [("action", "/login"); ("method", "post")]
     [[("name", "user")];
      [("name", "pw"); ("type", "password"); ("required", "")]]].

Definition search_page_form : html_form :=
  mkHtmlForm [("action", "/search")] [[("name", "q")]].

Definition sample_alert : dict json :=
  [("url", JStr "http://t/login"); ("risk", JStr "High");
   ("description", JStr "SQLi risk")].

(** Every page answers 200 with the login form; both scans report 100 at
    once; the spider found one URL and the engine raised one alert. *)
Definition healthy_engine : world :=
  mkWorld
    (fun _ _ => Ok (mkResponse 200 (Ok login_page)))
    (fun _ _ => Ok "1")
    (fun _ _ _ => Ok tt)
    (fun _ _ => Ok "0")
    (fun _ _ => Ok "100")
    (fun _ _ => Ok ["http://t/login"])
    (fun _ _ => Ok "0")
    (fun _ _ => Ok "100")
    (fun _ => Ok [sample_alert])
    (fun _ _ _ => Ok tt).

(** Every page answers 404. *)
Definition missing_pages : world :=
  mkWorld
    (fun _ _ => Ok (mkResponse 404 (Ok [])))
    (fun _ _ => Ok "1")
    (fun _ _ _ => Ok tt)
    (fun _ _ => Ok "0")
    (fun _ _ => Ok "100")
    (fun _ _ => Ok [])
    (fun _ _ => Ok "0")
    (fun _ _ => Ok "100")
    (fun _ => Ok [])
    (fun _ _ _ => Ok tt).

(** The HTTP client raises an exception that is not a [RequestException]. *)
Definition broken_client : world :=
  mkWorld
    (fun _ _ => Raise (OtherError "interrupted"))
    (fun _ _ => Ok "1")
    (fun _ _ _ => Ok tt)
    (fun _ _ => Ok "0")
    (fun _ _ => Ok "100")
    (fun _ _ => Ok [])
    (fun _ _ => Ok "0")
    (fun _ _ => Ok "100")
    (fun _ => Ok [])
    (fun _ _ _ => Ok tt).

Definition word_split (c : string) : split_outcome := Split [strip c].

Definition always_succeeds (h : list (list string)) (args : list string)
    : subprocess_outcome :=
  Completed (mkCompleted 0 " ok " "").

Definition messy_endpoints : dict json :=
  [("attack_surfaces",
    JList [JDict [("url", JNum 7); ("description", JStr "not a URL")];
           JDict [("description", JStr "no URL")];
           JDict [("url", JStr "http://t/a")]]);
   ("endpoints", JList [JStr "http://t/b"; JStr "not a url/"])].

Section Consolidation.

Variable bracketed_netloc_ok : string -> bool.

Definition netloc_ok (n : string) : bool :=
  if contains "[" n || contains "]" n then bracketed_netloc_ok n else true.

Definition urlparse (url0 : string) : result ParseResult :=
  let url1 := remove_chars is_tab_or_newline (lstrip_by is_c0_or_space url0) in
  let '(sch, url2) := split_scheme url1 in
  let '(nl, url3) := split_netloc url2 in
  if negb (netloc_ok nl) then Raise ValueError
  else
    let '(url4, frag) := split_on "#" url3 in
    let '(url5, qry) := split_on "?" url4 in
    let '(url6, prm) :=
      if existsb (String.eqb sch) uses_params && contains ";" url5
      then split_params url5 else (url5, EmptyString) in
    Ok (mkParseResult sch nl url6 prm qry frag).

(** ** [update_structure.py] *)

(** The trailing-slash rule shared by [normalize_action] and
    [build_description_map]:
    [if path != '/' and path.endswith('/'): path = path[:-1]] *)
Definition strip_trailing_slash (p : string) : string :=
  if negb (p =? "/")%string && endswith p "/" then drop_last p else p.

(** The value of [path] in [normalize_action] after the [try] block. *)
Definition action_path (action : string) : string :=
  match urlparse action with
  | Ok p =>
      if negb (scheme p =? "")%string && negb (netloc p =? "")%string
      then (if (path p =? "")%string then "/" else path p)
      else action
  | Raise _ => action
  end.

Definition normalize_action (action : string) : string :=
  if (action =? "")%string then "/"
  else
    let p := action_path action in
    let p := if startswith p "/" then p else ("/" ++ p)%string in
    strip_trailing_slash p.


(** [path = p.path or '/'] followed by the trailing-slash rule. *)
Definition url_path (p : ParseResult) : string :=
  strip_trailing_slash (if (path p =? "")%string then "/" else path p).

(** What one record of [attack_surfaces] contributes: its key and its
    description, or nothing when the loop [continue]s. *)
Definition surface_entry (d : dict json) : option (string * json) :=
  let url := py_or (py_get d "url") (JStr "") in
  let desc := py_or (py_get d "description") (JStr "") in
  if negb (truthy url) then None
  else
    match url with
    | JStr u =>
        match urlparse u with
        | Ok p => Some (url_path p, desc)
        | Raise _ => None
        end
    | _ => None (* [urlparse] raises on a true non-str value *)
    end.

(** One iteration of the loop over [attack_surfaces]. *)
Definition add_surface (desc_map : dict json) (item : json) : result (dict json) :=
  d <- as_dict item ;;
  match surface_entry d with
  | Some (k, desc) => Ok (dict_set k desc desc_map)
  | None => Ok desc_map
  end.

(** The argument of [urlparse(e)] as a str: a false non-str value is parsed
    like the empty string, a true non-str value raises. *)
Definition endpoint_url (e : json) : option string :=
  match e with
  | JStr s => Some s
  | _ => if truthy e then None else Some ""
  end.

(** One iteration of the loop over [endpoints]. *)
Definition add_endpoint (desc_map : dict json) (e : json) : dict json :=
  match endpoint_url e with
  | Some u =>
      match urlparse u with
      | Ok p =>
          let k := url_path p in
          if dict_mem k desc_map then desc_map else dict_set k (JStr "") desc_map
      | Raise _ => desc_map
      end
  | None => desc_map
  end.

Fixpoint add_surfaces (desc_map : dict json) (items : list json) : result (dict json) :=
  match items with
  | [] => Ok desc_map
  | item :: r => m <- add_surface desc_map item ;; add_surfaces m r
  end.

Definition build_description_map (endpoints_data : json) : result (dict json) :=
  match endpoints_data with
  | JDict d =>
      items <- py_iter (dict_get_default "attack_surfaces" (JList []) d) ;;
      m <- add_surfaces [] items ;;
      es <- py_iter (dict_get_default "endpoints" (JList []) d) ;;
      Ok (fold_left add_endpoint es m)
  | _ => Ok []
  end.

(** [normalize_action(action)] at its call site, where [action] is
    [f.get('action') or '']. *)
Definition normalize_action_value (action : json) : result string :=
  if negb (truthy action) then Ok "/"
  else
    match action with
    | JStr s => Ok (normalize_action s)
    | _ => Raise AttributeError
    end.

(** The fuzzy match: the first entry of [desc_map.items()] whose key and
    [norm_action] are suffix-related and whose description is true. *)
Fixpoint fuzzy_find (items : dict json) (norm_action : string) : option json :=
  match items with
  | [] => None
  | (p, desc) :: r =>
      if (endswith p norm_action || endswith norm_action p) && truthy desc
      then Some desc
      else fuzzy_find r norm_action
  end.

(** Lines 139-153 of [main]: attach a description to the form [f]. *)
Definition attach_description (desc_map : dict json) (norm_action : string)
    (f : dict json) : dict json :=
  let description := py_get desc_map norm_action in
  if truthy description then dict_set "feedback" description f
  else
    match fuzzy_find desc_map norm_action with
    | Some desc => dict_set "feedback" desc f
    | None => dict_setdefault "feedback" (JStr "") f
    end.

(** Lines 134-153 of [main]: what the loop does to a form it keeps. *)
Definition annotate (desc_map : dict json) (f : json) : result json :=
  d <- as_dict f ;;
  norm_action <- normalize_action_value (py_or (py_get d "action") (JStr "")) ;;
  let d := dict_set "action" (JStr norm_action) d in
  Ok (JDict (attach_description desc_map norm_action d)).

(** The loop [for f in forms] of [main], with its three variables. *)
Fixpoint main_loop (desc_map : dict json) (forms : list json)
    (seen : list signature) (unique_forms : list json) (duplicates : nat)
    : result (list json * nat) :=
  match forms with
  | [] => Ok (unique_forms, duplicates)
  | f :: rest =>
      sig <- form_signature f ;;
      if sig_in sig seen
      then main_loop desc_map rest seen unique_forms (S duplicates)
      else
        f' <- annotate desc_map f ;;
        main_loop desc_map rest (sig :: seen) (unique_forms ++ [f']) duplicates
  end.

(** The consolidation of a form catalog with an endpoints document: the
    surviving forms and the number of duplicates. *)
Definition consolidate (forms : list json) (endpoints : json)
    : result (list json * nat) :=
  desc_map <- build_description_map endpoints ;;
  main_loop desc_map forms [] [] 0.

(** *** The command line program *)

(** [main()], with the parsed arguments and the timestamp of the backup
    name as inputs. *)
Definition main (args : arguments) (now : string) (fs : filesystem) : outcome :=
  let structure_path := arg_structure args in
  let endpoints_path := arg_endpoints args in
  if negb (path_exists fs structure_path)
  then mkOutcome fs [StructureNotFound structure_path] 0
  else if negb (path_exists fs endpoints_path)
  then mkOutcome fs [EndpointsNotFound endpoints_path] 0
  else
    match (structure <- load_json fs structure_path ;;
           endpoints <- load_json fs endpoints_path ;;
           sd <- as_dict structure ;;
           let forms := dict_get_default "forms" (JList []) sd in
           n <- py_len forms ;;
           Ok (sd, endpoints, forms, n)) with
    | Raise _ => uncaught fs []
    | Ok (sd, endpoints, forms, n) =>
        let printed := [Loaded n structure_path] in
        match (desc_map <- build_description_map endpoints ;;
               fl <- py_iter forms ;;
               main_loop desc_map fl [] [] 0) with
        | Raise _ => uncaught fs printed
        | Ok (unique_forms, duplicates) =>
            let printed :=
              printed ++ [Removed duplicates (List.length unique_forms)] in
            let structure := JDict (dict_set "forms" (JList unique_forms) sd) in
            if arg_backup args
            then
              let bak_path := (structure_path ++ ".bak." ++ now)%string in
              match load_json fs structure_path with
              | Raise _ => uncaught fs printed
              | Ok original =>
                  let fs := save_json fs bak_path original in
                  let printed := printed ++ [BackupSaved bak_path] in
                  mkOutcome (save_json fs structure_path structure)
                    (printed ++ [UpdatedSaved structure_path]) 0
              end
            else
              mkOutcome (save_json fs structure_path structure)
                (printed ++ [UpdatedSaved structure_path]) 0
        end
    end.

(** *** The methods of [SecurityScanner] *)

Variable W : world.

Definition form_data_of (with_details : bool) (f : html_form) : json :=
  JDict
    [("action", JStr (dict_get_default "action" "" (form_tag f)));
     ("method", JStr (dict_get_default "method" "get" (form_tag f)));
     ("inputs",
      JList
        (map
           (fun input =>
              JDict
                ([("name", JStr (dict_get_default "name" "" input));
                  ("type", JStr (dict_get_default "type" "text" input))]
                 ++ (if with_details
                     then [("id", JStr (dict_get_default "id" "" input));
                           ("required", JBool (dict_mem "required" input))]
                     else [])))
           (input_tags f)))].

(** [save_results(filename, data)] *)
Definition save_results (filename : string) (data : json) : M unit :=
  try_except
    (s <~ get_state ;;
     external (WriteFile (output_dir s ++ "/" ++ filename)%string data)
       (fun h => write_file W h (output_dir s ++ "/" ++ filename)%string data))
    (fun e => logger ERROR (SaveError filename e)).

Definition validate_url : M bool :=
  s <~ get_state ;;
  let attempt : M bool :=
    parsed <~ lift (urlparse (target_url s)) ;;
    (if existsb (String.eqb (scheme parsed)) ["http"; "https"]
     then ret tt else raise ValueError) ;;;
    logger INFO (ValidatingURL (target_url s)) ;;;
    resp <~ external (HttpGet (target_url s))
              (fun h => requests_get W h (target_url s)) ;;
    if (status_code resp <? 400)%Z
    then logger INFO URLValid ;;; ret true
    else logger ERROR (URLStatus (status_code resp)) ;;; ret false in
  try_except attempt
    (fun e =>
       match e with
       | RequestException => logger ERROR (ErrorAccessingURL e) ;;; ret false
       | ValueError => logger ERROR URLValueError ;;; ret false
       | _ => raise e
       end).

(** [analyze_endpoint(url)] *)
Definition analyze_endpoint (url : string) : M unit :=
  try_except
    (resp <~ external (HttpGet url) (fun h => requests_get W h url) ;;
     fs <~ lift (page_forms resp) ;;
     for_each fs (fun f => append_form (form_data_of true f)))
    (fun e => logger WARNING (AnalyzeError url e)).

(** [while int(self.zap.spider.status(scan_id)) < 100: ...] *)
Fixpoint spider_monitor (fuel : nat) (scan_id : string) : M unit :=
  match fuel with
  | 0 => fun _ => Polling
  | S n =>
      st <~ external (ZapSpiderStatus scan_id)
              (fun h => zap_spider_status W h scan_id) ;;
      v <~ lift (py_int st) ;;
      if (v <? 100)%Z
      then
        progress <~ external (ZapSpiderStatus scan_id)
                      (fun h => zap_spider_status W h scan_id) ;;
        logger INFO (SpiderProgress progress) ;;;
        spider_monitor n scan_id
      else ret tt
  end.

Fixpoint ascan_monitor (fuel : nat) (ascan_id : string) : M unit :=
  match fuel with
  | 0 => fun _ => Polling
  | S n =>
      st <~ external (ZapAscanStatus ascan_id)
              (fun h => zap_ascan_status W h ascan_id) ;;
      v <~ lift (py_int st) ;;
      if (v <? 100)%Z
      then
        progress <~ external (ZapAscanStatus ascan_id)
                      (fun h => zap_ascan_status W h ascan_id) ;;
        logger INFO (ActiveScanProgress progress) ;;;
        ascan_monitor n ascan_id
      else ret tt
  end.

(** The crawling part of [discover_endpoints] (lines 66-86). *)
Definition crawl (fuel : nat) : M unit :=
  s <~ get_state ;;
  logger INFO StartingDiscovery ;;;
  _ <~ external (ZapNewContext "scan_context")
         (fun h => zap_new_context W h "scan_context") ;;
  external (ZapIncludeInContext "scan_context" ("^" ++ target_url s ++ ".*$")%string)
    (fun h => zap_include_in_context W h "scan_context"
                ("^" ++ target_url s ++ ".*$")%string) ;;;
  scan_id <~ external (ZapSpiderScan (target_url s))
               (fun h => zap_spider_scan W h (target_url s)) ;;
  spider_monitor fuel scan_id ;;;
  urls <~ external (ZapSpiderResults scan_id)
            (fun h => zap_spider_results W h scan_id) ;;
  for_each urls
    (fun url =>
       add_endpoint_url url ;;;
       logger INFO (Discovered url) ;;;
       analyze_endpoint url).

Definition attack_surface_of (alert : dict json) : json :=
  JDict
    [("url", py_get alert "url"); ("param", py_get alert "param");
     ("attack", py_get alert "attack"); ("evidence", py_get alert "evidence");
     ("risk", py_get alert "risk"); ("confidence", py_get alert "confidence");
     ("description", py_get alert "description");
     ("solution", py_get alert "solution")].

(** The active-scanning part of [discover_endpoints] (lines 88-117). *)
Definition active_scan (fuel : nat) : M unit :=
  s <~ get_state ;;
  ascan_id <~ external (ZapAscanScan (target_url s))
                (fun h => zap_ascan_scan W h (target_url s)) ;;
  ascan_monitor fuel ascan_id ;;;
  alerts <~ external ZapCoreAlerts (fun h => zap_core_alerts W h) ;;
  for_each alerts (fun alert => append_attack_surface (attack_surface_of alert)) ;;;
  s <~ get_state ;;
  save_results "endpoints.json"
    (JDict [("endpoints", JList (map JStr (discovered_endpoints s)));
            ("attack_surfaces", JList (attack_surfaces s))]) ;;;
  logger INFO (DiscoveryCompleted (List.length (discovered_endpoints s))
                 (List.length (attack_surfaces s))).

Definition discover_endpoints (fuel : nat) : M unit :=
  try_except
    (crawl fuel ;;; active_scan fuel)
    (fun e => logger ERROR (DiscoveryError e)).

Definition common_prefixes : list string :=
  ["www"; "admin"; "api"; "dev"; "test"; "staging"].

Definition enumerate_subdomains : M unit :=
  try_except
    (logger INFO StartingSubdomains ;;;
     s <~ get_state ;;
     parsed_url <~ lift (urlparse (target_url s)) ;;
     let domain := netloc parsed_url in
     for_each common_prefixes
       (fun prefix =>
          let subdomain := (prefix ++ "." ++ domain)%string in
          try_except
            (resp <~ external (HttpGet ("https://" ++ subdomain)%string)
                       (fun h => requests_get W h ("https://" ++ subdomain)%string) ;;
             if (status_code resp <? 400)%Z
             then add_subdomain subdomain ;;; logger INFO (FoundSubdomain subdomain)
             else ret tt)
            (fun _ => ret tt)) ;;;
     s <~ get_state ;;
     save_results "subdomains.json" (JList (map JStr (subdomains s))) ;;;
     logger INFO (SubdomainsCompleted (List.length (subdomains s))))
    (fun e => logger ERROR (SubdomainsError e)).

Definition analyze_structure : M unit :=
  try_except
    (logger INFO StartingStructure ;;;
     s <~ get_state ;;
     for_each (discovered_endpoints s)
       (fun endpoint =>
          try_except
            (resp <~ external (HttpGet endpoint)
                       (fun h => requests_get W h endpoint) ;;
             fs <~ lift (page_forms resp) ;;
             for_each fs (fun f => append_form (form_data_of false f)))
            (fun e => logger WARNING (AnalyzeError endpoint e))) ;;;
     s <~ get_state ;;
     save_results "structure.json" (JDict [("forms", JList (forms s))]) ;;;
     logger INFO (StructureCompleted (List.length (forms s))))
    (fun e => logger ERROR (StructureError e)).

Definition run_scan (fuel : nat) : M unit :=
  s <~ get_state ;;
  logger INFO (StartingScan (target_url s)) ;;;
  valid <~ validate_url ;;
  if valid
  then
    discover_endpoints fuel ;;;
    enumerate_subdomains ;;;
    analyze_structure ;;;
    logger INFO ScanCompleted
  else ret tt.

(** ** The signature pass, as the specification words it

    A form is kept the first time its signature is seen: position [i] of the
    catalog survives when no earlier position carries the same signature. *)

Definition first_occurrence (sigs : list signature) (i : nat) : Prop :=
  exists s, nth_error sigs i = Some s /\
            forall j, j < i -> nth_error sigs j <> Some s.

Definition first_occurrenceb (sigs : list signature) (i : nat) : bool :=
  match nth_error sigs i with
  | Some s => negb (sig_in s (firstn i sigs))
  | None => false
  end.

(** The surviving positions, in increasing order. *)
Definition first_occurrences (sigs : list signature) : list nat :=
  filter (first_occurrenceb sigs) (seq 0 (List.length sigs)).

(** The output form [g] is the annotated form at position [i] of the input. *)
Definition kept (desc_map : dict json) (forms : list json) (i : nat) (g : json) : Prop :=
  exists f, nth_error forms i = Some f /\ annotate desc_map f = Ok g.

(** The count of duplicates goes up by one. *)
Definition one_more_duplicate (r : result (list json * nat)) : result (list json * nat) :=
  match r with
  | Ok (unique_forms, duplicates) => Ok (unique_forms, S duplicates)
  | Raise e => Raise e
  end.

(** The fields of a form other than [action] and [feedback] are the same
    in [fd] and [gd]. *)
Definition same_other_fields (fd gd : dict json) : Prop :=
  forall k, k <> "action" -> k <> "feedback" -> dict_get k gd = dict_get k fd.

(** ** Auxiliary notions *)

(** The path with its leading slash, before the trailing-slash rule. *)
Definition rooted (p : string) : string :=
  if startswith p "/" then p else ("/" ++ p)%string.

Definition triple_le (x y : triple) : Prop := triple_leb x y = true.

(** Two results of reading the inputs agree up to the order of the triples. *)
Definition same_triples (r1 r2 : result (list triple)) : Prop :=
  match r1, r2 with
  | Ok t1, Ok t2 => Permutation t1 t2
  | Raise e1, Raise e2 => e1 = e2
  | _, _ => False
  end.

(** ** Observations on a scan session *)

Definition is_ascan_scan (c : call) : bool :=
  match c with
  | ZapAscanScan _ => true
  | _ => false
  end.

(** How many times the active scan was started. *)
Definition ascan_calls (tr : list call) : nat :=
  List.length (filter is_ascan_scan tr).

(** The method [m] never starts the active scan. *)
Definition no_ascan {A : Type} (m : M A) : Prop :=
  forall s,
    match m s with
    | Done _ s' | Raised _ s' => ascan_calls (trace s') = ascan_calls (trace s)
    | Polling => True
    end.

(** The method [m] has no polling loop that can outlast its fuel. *)
Definition halts {A : Type} (m : M A) : Prop := forall s, m s <> Polling.

(** ** A successful run of the command line program

    Both files are read, the loop ends, and the outcome [o] holds the
    rewritten structure document [JDict sd'] made from the document
    [JDict sd] that was read. *)
Definition successful_run (args : arguments) (now : string) (fs : filesystem)
    (o : outcome) (sd : dict json) (unique_forms : list json)
    (loaded duplicates : nat) : Prop :=
  exists endpoints desc_map fl,
    load_json fs (arg_structure args) = Ok (JDict sd) /\
    load_json fs (arg_endpoints args) = Ok endpoints /\
    py_len (dict_get_default "forms" (JList []) sd) = Ok loaded /\
    build_description_map endpoints = Ok desc_map /\
    py_iter (dict_get_default "forms" (JList []) sd) = Ok fl /\
    main_loop desc_map fl [] [] 0 = Ok (unique_forms, duplicates) /\
    let bak_path := (arg_structure args ++ ".bak." ++ now)%string in
    let structure := JDict (dict_set "forms" (JList unique_forms) sd) in
    o = mkOutcome
          (save_json
             (if arg_backup args then save_json fs bak_path (JDict sd) else fs)
             (arg_structure args) structure)
          ([Loaded loaded (arg_structure args);
            Removed duplicates (List.length unique_forms)]
           ++ (if arg_backup args then [BackupSaved bak_path] else [])
           ++ [UpdatedSaved (arg_structure args)])
          0.

(** The test of the fuzzy match: one of the key and the normalized action
    is a suffix of the other. *)
Definition related (p norm_action : string) : bool :=
  endswith p norm_action || endswith norm_action p.

(** A string that is empty or begins with a slash. *)
Definition rooted_or_empty (s : string) : Prop :=
  s = "" \/ exists t, s = String "/" t.

(** The triple that [form_signature] reads from the record the scanner
    writes for an input tag. *)
Definition tag_triple (with_details : bool) (input : tag) : triple :=
  (strip (dict_get_default "name" "" input),
   strip (dict_get_default "type" "text" input),
   with_details && dict_mem "required" input).

(** A description as the index stores it: non-empty, or the empty string. *)
Definition stored_description (v : json) : Prop :=
  truthy v = true \/ v = JStr "".

(** The hostname probed for a prefix, and the request that probes it. *)
Definition candidate (domain prefix : string) : string :=
  (prefix ++ "." ++ domain)%string.

Definition probe_call (domain prefix : string) : call :=
  HttpGet ("https://" ++ candidate domain prefix)%string.

(** The probe of [url] is accepted when the request, sent after the calls
    [h], answers with a status below 400. *)
Definition accepted (h : list call) (url : string) : bool :=
  match requests_get W h url with
  | Ok resp => (status_code resp <? 400)%Z
  | Raise _ => false
  end.

(** * Properties *)

(** ** Strings *)

Lemma endswith_unfold (s suf : string) :
  endswith s suf =
  (s =? suf)%string ||
  match s with
  | EmptyString => false
  | String _ t => endswith t suf
  end.
Proof. destruct s; reflexivity. Qed.

Lemma endswith_iff (s suf : string) :
  endswith s suf = true <-> exists pre, s = (pre ++ suf)%string.
Proof.
  induction s as [|c t IH]; rewrite endswith_unfold.
  - rewrite orb_false_r, String.eqb_eq. split.
    + intros H. exists EmptyString. subst. reflexivity.
    + intros [pre H]. destruct pre; simpl in H; [|discriminate].
      subst. reflexivity.
  - rewrite orb_true_iff, IH, String.eqb_eq. split.
    + intros [H|[pre H]].
      * exists EmptyString. exact H.
      * exists (String c pre). simpl. now rewrite H.
    + intros [[|c' pre] H]; simpl in H.
      * now left.
      * right. exists pre. now injection H.
Qed.

Lemma endswith_false_iff (s suf : string) :
  endswith s suf = false <-> forall pre, s <> (pre ++ suf)%string.
Proof.
  split.
  - intros H pre E.
    assert (endswith s suf = true) by (apply endswith_iff; eauto). congruence.
  - intros H. destruct (endswith s suf) eqn:E; [|reflexivity].
    apply endswith_iff in E. destruct E as [pre E]. now apply H in E.
Qed.

Lemma append_assoc (a b c : string) :
  ((a ++ b) ++ c = a ++ (b ++ c))%string.
Proof. induction a as [|x a IH]; simpl; [reflexivity|now rewrite IH]. Qed.

Lemma drop_last_append (pre : string) (c : ascii) :
  drop_last (pre ++ String c EmptyString) = pre.
Proof.
  induction pre as [|x pre IH]; simpl; [reflexivity|].
  rewrite IH. destruct pre; reflexivity.
Qed.

Lemma startswith_slash (s : string) :
  startswith s "/" = true <-> exists t, s = String "/" t.
Proof.
  unfold startswith. destruct s as [|c t]; cbn [String.prefix].
  - split; [intros H; discriminate H|intros [t H]; discriminate H].
  - destruct (ascii_dec "/" c) as [E|E].
    + subst c. split; [eauto|]. intros _. now destruct t.
    + split; [intros H; discriminate H|].
      intros [t' H]. injection H as H _. congruence.
Qed.

(** ** [normalize_action] *)

Lemma action_path_nonempty (a : string) : a <> "" -> action_path a <> "".
Proof.
  intros Ha. unfold action_path.
  destruct (urlparse a) as [p|e]; [|exact Ha].
  destruct (negb (scheme p =? "")%string && negb (netloc p =? "")%string);
    [|exact Ha].
  destruct (path p =? "")%string eqn:E; [discriminate|].
  now apply String.eqb_neq in E.
Qed.

Lemma rooted_starts (p : string) : exists t, rooted p = String "/" t.
Proof.
  unfold rooted. destruct (startswith p "/") eqn:E.
  - now apply startswith_slash.
  - now exists p.
Qed.

Lemma rooted_double_slash (p : string) :
  endswith (rooted p) "//" = true -> endswith p "//" = true.
Proof.
  unfold rooted. destruct (startswith p "/") eqn:E; [trivial|].
  intros H. apply endswith_iff in H. destruct H as [pre H].
  destruct pre as [|c pre]; simpl in H.
  - injection H as H. subst p. discriminate.
  - injection H as _ H. apply endswith_iff. now exists pre.
Qed.

Lemma strip_trailing_slash_cases (p : string) :
  ((p = "/" \/ endswith p "/" = false) /\ strip_trailing_slash p = p) \/
  (exists pre, p = (pre ++ "/")%string /\ pre <> "" /\ strip_trailing_slash p = pre).
Proof.
  unfold strip_trailing_slash.
  destruct (String.eqb_spec p "/") as [E|E]; cbn [negb andb].
  - left. auto.
  - destruct (endswith p "/") eqn:Hend.
    + right. apply endswith_iff in Hend. destruct Hend as [pre Hpre].
      exists pre. subst p. rewrite (drop_last_append pre "/").
      repeat split. intros ->. now apply E.
    + left. auto.
Qed.

Lemma strip_trailing_slash_rooted (t : string) :
  (exists t', strip_trailing_slash (String "/" t) = String "/" t') /\
  (endswith (String "/" t) "//" = false ->
   strip_trailing_slash (String "/" t) = "/" \/
   endswith (strip_trailing_slash (String "/" t)) "/" = false).
Proof.
  destruct (strip_trailing_slash_cases (String "/" t))
    as [[Hcase ->]|[pre [Hpre [Hne ->]]]].
  - split; [eauto|]. intros _. exact Hcase.
  - split.
    + destruct pre as [|c pre]; [congruence|].
      simpl in Hpre. injection Hpre as <- _. eauto.
    + intros Hdouble. right.
      destruct (endswith pre "/") eqn:Hpre'; [|reflexivity].
      apply endswith_iff in Hpre'. destruct Hpre' as [pre' E]. subst pre.
      rewrite Hpre in Hdouble.
      assert (endswith ((pre' ++ "/") ++ "/") "//" = true) as Hc.
      { apply endswith_iff. exists pre'. now rewrite append_assoc. }
      congruence.
Qed.

Lemma normalize_action_unfold (a : string) :
  a <> "" -> normalize_action a = strip_trailing_slash (rooted (action_path a)).
Proof.
  intros Ha. unfold normalize_action, rooted.
  apply String.eqb_neq in Ha. now rewrite Ha.
Qed.

Lemma normalize_action_starts (a : string) :
  exists t, normalize_action a = String "/" t.
Proof.
  destruct (string_dec a "") as [E|E].
  - subst a. now exists EmptyString.
  - rewrite (normalize_action_unfold a E).
    destruct (rooted_starts (action_path a)) as [t Ht]. rewrite Ht.
    apply (strip_trailing_slash_rooted t).
Qed.

(** C4 (amended).  [normalize_action] maps "http://host/a/b/" to "/a/b",
    "" to "/", "a/b" to "/a/b" and "/" to "/".  For every input string the
    result is non-empty and begins with "/"; it has no trailing "/" unless
    it is exactly "/", provided the path being normalized (the path of an
    absolute URL, otherwise the raw action) does not end in "//": exactly
    one trailing "/" is removed. *)
Theorem normalize_action_normal_form :
  normalize_action "http://host/a/b/" = "/a/b" /\
  normalize_action "" = "/" /\
  normalize_action "a/b" = "/a/b" /\
  normalize_action "/" = "/" /\
  forall a : string,
    normalize_action a <> "" /\
    startswith (normalize_action a) "/" = true /\
    (endswith (action_path a) "//" = false ->
     normalize_action a = "/" \/ endswith (normalize_action a) "/" = false).
Proof.
  repeat (split; [vm_compute; reflexivity|]).
  intros a.
  destruct (normalize_action_starts a) as [t Ht].
  split; [rewrite Ht; discriminate|].
  split; [apply startswith_slash; eauto|].
  intros Hpath.
  destruct (string_dec a "") as [E|E]; [subst a; now left|].
  rewrite (normalize_action_unfold a E).
  destruct (rooted_starts (action_path a)) as [r Hr].
  assert (endswith (rooted (action_path a)) "//" = false) as Hrooted.
  { destruct (endswith (rooted (action_path a)) "//") eqn:Hd; [|reflexivity].
    apply rooted_double_slash in Hd. congruence. }
  rewrite Hr in *. now apply strip_trailing_slash_rooted.
Qed.

(** ** Dicts *)

Lemma dict_get_set_same {V : Type} (k : string) (v : V) (d : dict V) :
  dict_get k (dict_set k v d) = Some v.
Proof.
  induction d as [|[k' v'] r IH]; simpl.
  - now rewrite String.eqb_refl.
  - destruct (k' =? k)%string eqn:E; simpl; now rewrite E.
Qed.

Lemma dict_get_set_other {V : Type} (k k' : string) (v : V) (d : dict V) :
  k <> k' -> dict_get k (dict_set k' v d) = dict_get k d.
Proof.
  intros Hk. induction d as [|[k0 v0] r IH]; simpl.
  - destruct (String.eqb_spec k' k); [congruence|reflexivity].
  - destruct (String.eqb_spec k0 k') as [E|E]; simpl.
    + subst k0. destruct (String.eqb_spec k' k); [congruence|reflexivity].
    + destruct (String.eqb_spec k0 k); [reflexivity|exact IH].
Qed.

Lemma dict_set_same {V : Type} (k : string) (v : V) (d : dict V) :
  dict_get k d = Some v -> dict_set k v d = d.
Proof.
  induction d as [|[k' v'] r IH]; simpl; [discriminate|].
  destruct (k' =? k)%string.
  - now intros [= ->].
  - intros H. now rewrite (IH H).
Qed.

Lemma dict_setdefault_present {V : Type} (k : string) (v w : V) (d : dict V) :
  dict_get k d = Some w -> dict_setdefault k v d = d.
Proof. intros H. unfold dict_setdefault, dict_mem. now rewrite H. Qed.

Lemma dict_get_setdefault {V : Type} (k : string) (v : V) (d : dict V) :
  exists w, dict_get k (dict_setdefault k v d) = Some w.
Proof.
  unfold dict_setdefault, dict_mem. destruct (dict_get k d) eqn:E.
  - eauto.
  - exists v. apply dict_get_set_same.
Qed.

Lemma dict_get_setdefault_other {V : Type} (k k' : string) (v : V) (d : dict V) :
  k <> k' -> dict_get k (dict_setdefault k' v d) = dict_get k d.
Proof.
  intros Hk. unfold dict_setdefault. destruct (dict_mem k' d); [reflexivity|].
  now apply dict_get_set_other.
Qed.

(** ** The description index *)

Lemma add_surfaces_app (m : dict json) (l1 l2 : list json) :
  add_surfaces m (l1 ++ l2) = (m1 <- add_surfaces m l1 ;; add_surfaces m1 l2).
Proof.
  revert m. induction l1 as [|x l1 IH]; intros m; simpl; [reflexivity|].
  destruct (add_surface m x) as [m'|e]; simpl; [apply IH|reflexivity].
Qed.

Lemma add_surfaces_other_keys (key : string) (post : list json) :
  (forall later v, In (JDict later) post -> surface_entry later <> Some (key, v)) ->
  forall m m', add_surfaces m post = Ok m' -> dict_get key m' = dict_get key m.
Proof.
  induction post as [|x post IH]; intros Hpost m m'; simpl.
  - now intros [= ->].
  - unfold add_surface. destruct x as [| | | | |d]; simpl; try discriminate.
    assert (forall later v, In (JDict later) post ->
                            surface_entry later <> Some (key, v)) as Hrest
      by (intros later v Hin; apply Hpost; now right).
    destruct (surface_entry d) as [[k desc]|] eqn:Hentry; simpl; intros H.
    + rewrite (IH Hrest _ _ H). apply dict_get_set_other.
      intros <-. apply (Hpost d desc); [now left|exact Hentry].
    + apply (IH Hrest _ _ H).
Qed.

Lemma add_endpoints_keep (key : string) (v : json) (es : list json) :
  forall m, dict_get key m = Some v ->
            dict_get key (fold_left add_endpoint es m) = Some v.
Proof.
  induction es as [|e es IH]; intros m Hm; simpl; [exact Hm|].
  apply IH. unfold add_endpoint.
  destruct (endpoint_url e) as [u|]; [|exact Hm].
  destruct (urlparse u) as [p|]; [|exact Hm].
  cbv zeta. destruct (dict_mem (url_path p) m) eqn:Hmem; [exact Hm|].
  rewrite dict_get_set_other; [exact Hm|].
  intros Hk. unfold dict_mem in Hmem. rewrite <- Hk, Hm in Hmem. discriminate.
Qed.

(** C3 (amended).  When several attack-surface records normalize to the same
    key, the description index maps that key to the description of the last
    such record in catalog order: each later record replaces the stored
    description, and the bare endpoints never replace it. *)
Theorem description_index_last_wins
    (d : dict json) (pre post : list json) (item : dict json)
    (key : string) (desc : json) (m : dict json) :
  py_iter (dict_get_default "attack_surfaces" (JList []) d)
    = Ok (pre ++ JDict item :: post) ->
  surface_entry item = Some (key, desc) ->
  (forall later v, In (JDict later) post -> surface_entry later <> Some (key, v)) ->
  build_description_map (JDict d) = Ok m ->
  dict_get key m = Some desc.
Proof.
  intros Hitems Hentry Hpost. unfold build_description_map.
  rewrite Hitems. cbn [bind]. rewrite add_surfaces_app.
  destruct (add_surfaces [] pre) as [m0|e]; cbn [bind]; [|discriminate].
  cbn [add_surfaces add_surface as_dict bind]. rewrite Hentry. cbn [bind].
  destruct (add_surfaces (dict_set key desc m0) post) as [m1|e] eqn:Hm1;
    cbn [bind]; [|discriminate].
  destruct (py_iter (dict_get_default "endpoints" (JList []) d)) as [es|e];
    cbn [bind]; [|discriminate].
  intros [= <-]. apply add_endpoints_keep.
  rewrite (add_surfaces_other_keys key post Hpost _ _ Hm1).
  apply dict_get_set_same.
Qed.

(** ** Description attachment *)

Lemma fuzzy_find_truthy (items : dict json) (na : string) (v : json) :
  fuzzy_find items na = Some v -> truthy v = true.
Proof.
  induction items as [|[p desc] r IH]; simpl; [discriminate|].
  destruct ((endswith p na || endswith na p) && truthy desc) eqn:E.
  - intros [= <-]. now apply andb_true_iff in E.
  - exact IH.
Qed.

Lemma truthy_not_empty (v : json) : truthy v = true -> v <> JStr "".
Proof. intros H ->. discriminate H. Qed.

(** C5.  A form that enters the description attachment with a non-empty
    feedback leaves it with a non-empty feedback, whatever the description
    index holds: an empty description never replaces it. *)
Theorem attach_description_keeps_feedback
    (desc_map : dict json) (norm_action : string) (f : dict json) (v : json) :
  dict_get "feedback" f = Some v ->
  truthy v = true ->
  exists v',
    dict_get "feedback" (attach_description desc_map norm_action f) = Some v' /\
    truthy v' = true /\ v' <> JStr "".
Proof.
  intros Hget Hv. unfold attach_description.
  destruct (truthy (py_get desc_map norm_action)) eqn:Hexact.
  - exists (py_get desc_map norm_action).
    rewrite dict_get_set_same. auto using truthy_not_empty.
  - destruct (fuzzy_find desc_map norm_action) as [desc|] eqn:Hfuzzy.
    + exists desc. rewrite dict_get_set_same.
      apply fuzzy_find_truthy in Hfuzzy. auto using truthy_not_empty.
    + exists v. rewrite (dict_setdefault_present _ _ v _ Hget).
      auto using truthy_not_empty.
Qed.

(** ** The signature pass *)

Lemma sig_in_true (s : signature) (seen : list signature) :
  sig_in s seen = true <-> In s seen.
Proof.
  unfold sig_in. destruct (in_dec signature_eq_dec s seen); split; auto.
  discriminate.
Qed.

Lemma sig_in_false (s : signature) (seen : list signature) :
  sig_in s seen = false <-> ~ In s seen.
Proof.
  unfold sig_in. destruct (in_dec signature_eq_dec s seen); split; auto.
  - discriminate.
  - contradiction.
Qed.

Lemma sig_in_ext (s : signature) (l1 l2 : list signature) :
  (forall x, In x l1 <-> In x l2) -> sig_in s l1 = sig_in s l2.
Proof.
  intros H. destruct (sig_in s l2) eqn:E.
  - apply sig_in_true. apply H. now apply sig_in_true.
  - apply sig_in_false. intros Hin. apply H in Hin.
    apply sig_in_false in E. contradiction.
Qed.

Lemma first_occurrenceb_at_end (pre rest : list signature) (s : signature) :
  first_occurrenceb (pre ++ s :: rest) (List.length pre) = negb (sig_in s pre).
Proof.
  unfold first_occurrenceb.
  rewrite nth_error_app2, Nat.sub_diag by lia. simpl.
  rewrite firstn_app, Nat.sub_diag, firstn_all. simpl.
  now rewrite app_nil_r.
Qed.

Lemma nth_error_middle {A : Type} (pre rest : list A) (x : A) :
  nth_error (pre ++ x :: rest) (List.length pre) = Some x.
Proof. rewrite nth_error_app2, Nat.sub_diag by lia. reflexivity. Qed.

(** The loop invariant: after the forms [pre_forms], whose signatures are
    [pre_sigs], the set [seen] holds exactly the signatures met so far. *)
Lemma main_loop_invariant (desc_map : dict json) (rest : list json) :
  forall (pre_forms : list json) (pre_sigs seen : list signature)
         (unique_forms : list json) (duplicates : nat)
         (out : list json) (d : nat),
    List.length pre_forms = List.length pre_sigs ->
    (forall s, In s seen <-> In s pre_sigs) ->
    main_loop desc_map rest seen unique_forms duplicates = Ok (out, d) ->
    exists sigs outs,
      mapM form_signature rest = Ok sigs /\
      out = unique_forms ++ outs /\
      Forall2 (kept desc_map (pre_forms ++ rest))
        (filter (first_occurrenceb (pre_sigs ++ sigs))
           (seq (List.length pre_sigs) (List.length sigs))) outs /\
      d + List.length outs = duplicates + List.length rest.
Proof.
  induction rest as [|f rest IH];
    intros pre_forms pre_sigs seen unique_forms duplicates out d Hlen Hseen;
    cbn [main_loop mapM].
  - intros [= <- <-]. exists [], []. rewrite app_nil_r. simpl.
    repeat split; try constructor; lia.
  - destruct (form_signature f) as [s|e]; cbn [bind]; [|discriminate].
    assert (List.length (pre_forms ++ [f]) = List.length (pre_sigs ++ [s])) as Hlen'
      by (rewrite !length_app; simpl; lia).
    destruct (sig_in s seen) eqn:Hin.
    + intros Hloop.
      assert (forall x, In x seen <-> In x (pre_sigs ++ [s])) as Hset.
      { intros x. rewrite in_app_iff, <- Hseen. simpl. split; [auto|].
        intros [H|[<-|[]]]; [exact H|]. now apply sig_in_true. }
      destruct (IH _ _ _ _ _ _ _ Hlen' Hset Hloop)
        as [sigs [outs [Hsigs [Hout [Hkept Hcount]]]]].
      exists (s :: sigs), outs. rewrite Hsigs. cbn [bind].
      split; [reflexivity|]. split; [exact Hout|].
      split; [|simpl in *; lia].
      cbn [List.length seq filter].
      rewrite first_occurrenceb_at_end, <- (sig_in_ext s seen pre_sigs Hseen), Hin.
      cbn [negb]. rewrite <- !app_assoc in Hkept. simpl in Hkept.
      rewrite length_app in Hkept. simpl in Hkept.
      now rewrite Nat.add_1_r in Hkept.
    + destruct (annotate desc_map f) as [g|e] eqn:Hg; cbn [bind]; [|discriminate].
      intros Hloop.
      assert (forall x, In x (s :: seen) <-> In x (pre_sigs ++ [s])) as Hset.
      { intros x. rewrite in_app_iff, <- Hseen. simpl. tauto. }
      destruct (IH _ _ _ _ _ _ _ Hlen' Hset Hloop)
        as [sigs [outs [Hsigs [Hout [Hkept Hcount]]]]].
      exists (s :: sigs), (g :: outs). rewrite Hsigs. cbn [bind].
      split; [reflexivity|]. split; [|split].
      * now rewrite Hout, <- app_assoc.
      * cbn [List.length seq filter].
        rewrite first_occurrenceb_at_end, <- (sig_in_ext s seen pre_sigs Hseen), Hin.
        cbn [negb]. constructor.
        -- exists f. split; [|exact Hg].
           rewrite <- Hlen. apply nth_error_middle.
        -- rewrite <- !app_assoc in Hkept. simpl in Hkept.
           rewrite length_app in Hkept. simpl in Hkept.
           now rewrite Nat.add_1_r in Hkept.
      * simpl. lia.
Qed.

Lemma main_loop_first_occurrences
    (desc_map : dict json) (forms out : list json) (d : nat) :
  main_loop desc_map forms [] [] 0 = Ok (out, d) ->
  exists sigs,
    mapM form_signature forms = Ok sigs /\
    Forall2 (kept desc_map forms) (first_occurrences sigs) out /\
    d + List.length out = List.length forms.
Proof.
  intros H.
  assert (forall s : signature, In s [] <-> In s []) as Hset by tauto.
  destruct (main_loop_invariant desc_map forms [] [] [] [] 0 out d eq_refl Hset H)
    as [sigs [outs [Hsigs [Hout [Hkept Hcount]]]]].
  exists sigs. simpl in Hout. subst outs. auto.
Qed.

Lemma in_firstn_iff {A : Type} (x : A) (i : nat) (l : list A) :
  In x (firstn i l) <-> exists j, j < i /\ nth_error l j = Some x.
Proof.
  split.
  - intros H. apply In_nth_error in H. destruct H as [j Hj].
    rewrite nth_error_firstn in Hj. exists j.
    destruct (Nat.ltb_spec j i); [auto|discriminate].
  - intros [j [Hlt Hj]]. apply (nth_error_In _ j).
    rewrite nth_error_firstn.
    destruct (Nat.ltb_spec j i); [exact Hj|lia].
Qed.

Lemma first_occurrenceb_spec (sigs : list signature) (i : nat) :
  first_occurrenceb sigs i = true <-> first_occurrence sigs i.
Proof.
  unfold first_occurrenceb, first_occurrence.
  destruct (nth_error sigs i) as [s|].
  - rewrite negb_true_iff, sig_in_false, in_firstn_iff. split.
    + intros H. exists s. split; [reflexivity|].
      intros j Hj Hs. apply H. eauto.
    + intros [s' [[= <-] H]] [j [Hj Hs]]. now apply (H j).
  - split; [discriminate|]. intros [s [H _]]. discriminate.
Qed.

Lemma first_occurrences_spec (sigs : list signature) (i : nat) :
  In i (first_occurrences sigs) <-> first_occurrence sigs i.
Proof.
  unfold first_occurrences. rewrite filter_In, in_seq, first_occurrenceb_spec.
  split; [tauto|]. intros H. split; [|exact H].
  destruct H as [s [Hs _]].
  assert (nth_error sigs i <> None) as Hn by congruence.
  apply nth_error_Some in Hn. lia.
Qed.

Lemma StronglySorted_seq (start len : nat) : StronglySorted lt (seq start len).
Proof.
  revert start. induction len as [|len IH]; intros start; simpl; constructor.
  - apply IH.
  - apply Forall_forall. intros x Hx. apply in_seq in Hx. lia.
Qed.

Lemma StronglySorted_filter {A : Type} (R : A -> A -> Prop) (f : A -> bool)
    (l : list A) :
  StronglySorted R l -> StronglySorted R (filter f l).
Proof.
  induction 1 as [|a l Hl IH Ha]; simpl; [constructor|].
  destruct (f a); [|exact IH]. constructor; [exact IH|].
  apply Forall_forall. intros x Hx. apply filter_In in Hx.
  rewrite Forall_forall in Ha. now apply Ha.
Qed.


(** ** The frame of one run *)

Lemma attach_description_frame
    (desc_map : dict json) (norm_action k : string) (f : dict json) :
  k <> "feedback" ->
  dict_get k (attach_description desc_map norm_action f) = dict_get k f.
Proof.
  intros Hk. unfold attach_description.
  destruct (truthy (py_get desc_map norm_action)).
  - now apply dict_get_set_other.
  - destruct (fuzzy_find desc_map norm_action).
    + now apply dict_get_set_other.
    + now apply dict_get_setdefault_other.
Qed.

Lemma annotate_inv (desc_map : dict json) (f g : json) :
  annotate desc_map f = Ok g ->
  exists fd na,
    f = JDict fd /\
    normalize_action_value (py_or (py_get fd "action") (JStr "")) = Ok na /\
    g = JDict (attach_description desc_map na (dict_set "action" (JStr na) fd)).
Proof.
  unfold annotate. destruct f as [| | | | |fd]; simpl; try discriminate.
  destruct (normalize_action_value (py_or (py_get fd "action") (JStr "")))
    as [na|e] eqn:Hna; simpl; [|discriminate].
  intros [= <-]. exists fd, na. auto.
Qed.

Lemma annotate_frame (desc_map : dict json) (f g : json) :
  annotate desc_map f = Ok g ->
  exists fd gd, f = JDict fd /\ g = JDict gd /\ same_other_fields fd gd.
Proof.
  intros H. apply annotate_inv in H. destruct H as [fd [na [-> [_ ->]]]].
  eexists _, _. repeat split. intros k Ha Hf.
  rewrite attach_description_frame by exact Hf.
  now apply dict_get_set_other.
Qed.

(** C10.  One run changes at most the [action] and [feedback] fields of a
    surviving form: every other field of the first form of its signature
    class, [method] and [inputs] among them, reaches the output unchanged. *)
Theorem consolidation_frame
    (desc_map : dict json) (forms out : list json) (duplicates : nat) :
  main_loop desc_map forms [] [] 0 = Ok (out, duplicates) ->
  exists sigs,
    mapM form_signature forms = Ok sigs /\
    Forall2
      (fun i g =>
         exists fd gd,
           nth_error forms i = Some (JDict fd) /\ g = JDict gd /\
           same_other_fields fd gd /\
           dict_get "method" gd = dict_get "method" fd /\
           dict_get "inputs" gd = dict_get "inputs" fd)
      (first_occurrences sigs) out.
Proof.
  intros H. apply main_loop_first_occurrences in H.
  destruct H as [sigs [Hsigs [Hkept _]]]. exists sigs. split; [exact Hsigs|].
  eapply Forall2_impl; [|exact Hkept].
  intros i g [f [Hf Hg]]. apply annotate_frame in Hg.
  destruct Hg as [fd [gd [-> [-> Hsame]]]]. exists fd, gd.
  repeat split; try assumption; apply Hsame; discriminate.
Qed.

(** ** The order on input triples and [sorted] *)

Lemma string_compare_trans (a b c : string) :
  String.compare a b <> Gt -> String.compare b c <> Gt -> String.compare a c <> Gt.
Proof.
  revert b c. induction a as [|x a IH]; intros [|y b] [|z c]; simpl;
    try congruence.
  unfold Ascii.compare.
  destruct (N.compare_spec (N_of_ascii x) (N_of_ascii y));
    destruct (N.compare_spec (N_of_ascii y) (N_of_ascii z));
    destruct (N.compare_spec (N_of_ascii x) (N_of_ascii z));
    try congruence; try lia; eauto.
Qed.

Lemma string_leb_trans (a b c : string) :
  String.leb a b = true -> String.leb b c = true -> String.leb a c = true.
Proof.
  unfold String.leb. intros H1 H2.
  assert (String.compare a c <> Gt) as H.
  { apply (string_compare_trans a b c).
    - destruct (String.compare a b); congruence.
    - destruct (String.compare b c); congruence. }
  destruct (String.compare a c); congruence.
Qed.

Lemma string_leb_refl (a : string) : String.leb a a = true.
Proof. destruct (String.leb_total a a); assumption. Qed.

Lemma bool_leb_total (a b : bool) : bool_leb a b = true \/ bool_leb b a = true.
Proof. destruct a, b; simpl; auto. Qed.

Ltac string_cases :=
  repeat match goal with
         | |- context [String.eqb ?a ?b] => destruct (String.eqb_spec a b); subst
         | H : context [String.eqb ?a ?b] |- _ =>
             destruct (String.eqb_spec a b); subst
         end.

Lemma triple_leb_total (x y : triple) :
  triple_leb x y = true \/ triple_leb y x = true.
Proof.
  destruct x as [[n1 t1] r1], y as [[n2 t2] r2]. unfold triple_leb.
  string_cases; try congruence;
    auto using bool_leb_total, String.leb_total.
Qed.

Lemma triple_leb_antisym (x y : triple) :
  triple_leb x y = true -> triple_leb y x = true -> x = y.
Proof.
  destruct x as [[n1 t1] r1], y as [[n2 t2] r2]. unfold triple_leb.
  string_cases; intros H1 H2; try congruence;
    try (destruct r1, r2; unfold bool_leb in *; simpl in *; congruence);
    match goal with
    | n : ?a <> ?b |- _ => elim n; now apply String.leb_antisym
    end.
Qed.

Lemma triple_leb_trans (x y z : triple) :
  triple_leb x y = true -> triple_leb y z = true -> triple_leb x z = true.
Proof.
  destruct x as [[n1 t1] r1], y as [[n2 t2] r2], z as [[n3 t3] r3].
  unfold triple_leb. string_cases; intros H1 H2; try congruence;
    try (destruct r1, r2, r3; unfold bool_leb in *; simpl in *; congruence);
    try (eapply string_leb_trans; eassumption);
    try assumption;
    match goal with
    | n : ?a <> ?b |- _ => elim n; now apply String.leb_antisym
    end.
Qed.

Lemma insert_sorted_perm (x : triple) (l : list triple) :
  Permutation (insert_sorted x l) (x :: l).
Proof.
  induction l as [|y l IH]; simpl; [reflexivity|].
  destruct (triple_leb x y); [reflexivity|].
  rewrite IH. apply perm_swap.
Qed.

Lemma sorted_perm (l : list triple) : Permutation (sorted l) l.
Proof.
  induction l as [|x l IH]; simpl; [reflexivity|].
  rewrite insert_sorted_perm. now constructor.
Qed.

Lemma insert_sorted_strongly (x : triple) (l : list triple) :
  StronglySorted triple_le l -> StronglySorted triple_le (insert_sorted x l).
Proof.
  induction 1 as [|y l Hl IH Hy]; simpl.
  - repeat constructor.
  - destruct (triple_leb x y) eqn:E.
    + constructor; [now constructor|]. constructor; [exact E|].
      eapply Forall_impl; [|exact Hy]. intros z Hz.
      now apply (triple_leb_trans x y z).
    + constructor; [exact IH|].
      apply Forall_forall. intros z Hz.
      apply (Permutation_in _ (insert_sorted_perm x l)) in Hz.
      destruct Hz as [<-|Hz].
      * destruct (triple_leb_total x y); [congruence|assumption].
      * rewrite Forall_forall in Hy. now apply Hy.
Qed.

Lemma sorted_strongly (l : list triple) : StronglySorted triple_le (sorted l).
Proof.
  induction l as [|x l IH]; simpl; [constructor|].
  now apply insert_sorted_strongly.
Qed.

Lemma strongly_sorted_unique (l1 l2 : list triple) :
  StronglySorted triple_le l1 -> StronglySorted triple_le l2 ->
  Permutation l1 l2 -> l1 = l2.
Proof.
  intros H1. revert l2. induction H1 as [|a l1 Hl1 IH Ha]; intros l2 H2 Hp.
  - apply Permutation_nil in Hp. now subst.
  - destruct H2 as [|b l2 Hl2 Hb].
    + apply Permutation_sym, Permutation_nil in Hp. discriminate.
    + assert (a = b) as ->.
      { rewrite Forall_forall in Ha, Hb.
        assert (In a (b :: l2)) as Hab
          by (apply (Permutation_in _ Hp); now left).
        assert (In b (a :: l1)) as Hba
          by (apply (Permutation_in _ (Permutation_sym Hp)); now left).
        destruct Hab as [->|Hab]; [reflexivity|].
        destruct Hba as [->|Hba]; [reflexivity|].
        apply triple_leb_antisym; [now apply Ha|now apply Hb]. }
      f_equal. apply IH; [exact Hl2|].
      now apply Permutation_cons_inv in Hp.
Qed.

Lemma sorted_permutation (l1 l2 : list triple) :
  Permutation l1 l2 -> sorted l1 = sorted l2.
Proof.
  intros Hp. apply strongly_sorted_unique; try apply sorted_strongly.
  rewrite !sorted_perm. exact Hp.
Qed.

(** ** Signatures and the order of the inputs *)

Lemma input_triple_error (inp : json) (e : exn) :
  input_triple inp = Raise e -> e = AttributeError.
Proof.
  unfold input_triple, as_dict, str_strip.
  destruct inp as [| | | | |d]; simpl; try congruence.
  destruct (py_or (py_get d "name") (JStr "")); simpl; try congruence;
    destruct (py_or (py_get d "type") (JStr "")); simpl; congruence.
Qed.

Lemma mapM_input_triple_error (l : list json) (e : exn) :
  mapM input_triple l = Raise e -> e = AttributeError.
Proof.
  induction l as [|x l IH]; simpl; [discriminate|].
  destruct (input_triple x) as [t|e'] eqn:Hx; simpl.
  - destruct (mapM input_triple l) as [ts|e'']; simpl; [discriminate|].
    intros [= <-]. now apply IH.
  - intros [= <-]. now apply input_triple_error in Hx.
Qed.

Lemma same_triples_trans (r1 r2 r3 : result (list triple)) :
  same_triples r1 r2 -> same_triples r2 r3 -> same_triples r1 r3.
Proof.
  destruct r1, r2, r3; simpl; try tauto; try congruence.
  apply Permutation_trans.
Qed.

Lemma mapM_input_triple_permutation (l1 l2 : list json) :
  Permutation l1 l2 ->
  same_triples (mapM input_triple l1) (mapM input_triple l2).
Proof.
  induction 1 as [|x l1 l2 Hp IH|x y l|l1 l2 l3 Hp1 IH1 Hp2 IH2].
  - simpl. constructor.
  - simpl. destruct (input_triple x) as [t|e]; simpl; [|reflexivity].
    destruct (mapM input_triple l1), (mapM input_triple l2); simpl in *;
      try tauto. now constructor.
  - simpl.
    destruct (input_triple x) as [tx|ex] eqn:Hx,
             (input_triple y) as [ty|ey] eqn:Hy; simpl.
    + destruct (mapM input_triple l); simpl; [apply perm_swap|reflexivity].
    + reflexivity.
    + reflexivity.
    + apply input_triple_error in Hx, Hy. congruence.
  - eapply same_triples_trans; eassumption.
Qed.

Lemma input_triples_of_list (d : dict json) (l : list json) :
  py_get d "inputs" = JList l -> input_triples d = mapM input_triple l.
Proof.
  intros H. unfold input_triples, py_or. rewrite H.
  destruct l; reflexivity.
Qed.

Lemma form_signature_unfold (d : dict json) :
  form_signature (JDict d) =
  (action <- str_strip (dict_get_default "action" (JStr "") d) ;;
   method <- str_upper_strip (py_or (py_get d "method") (JStr "")) ;;
   ts <- input_triples d ;;
   Ok (action, method, sorted ts)).
Proof. reflexivity. Qed.

Lemma form_signature_same_triples (d1 d2 : dict json) :
  dict_get "action" d1 = dict_get "action" d2 ->
  dict_get "method" d1 = dict_get "method" d2 ->
  same_triples (input_triples d1) (input_triples d2) ->
  form_signature (JDict d1) = form_signature (JDict d2).
Proof.
  intros Ha Hm Ht. rewrite !form_signature_unfold.
  unfold py_get, dict_get_default. rewrite Ha, Hm.
  destruct (str_strip _) as [a|e]; simpl; [|reflexivity].
  destruct (str_upper_strip _) as [m|e]; simpl; [|reflexivity].
  destruct (input_triples d1) as [t1|e1], (input_triples d2) as [t2|e2];
    simpl in *; try tauto; try congruence.
  now rewrite (sorted_permutation t1 t2 Ht).
Qed.

(** ** Dropping a later form of a known signature *)

Lemma main_loop_one_more (desc_map : dict json) (l : list json) :
  forall seen unique_forms duplicates,
    main_loop desc_map l seen unique_forms (S duplicates) =
    one_more_duplicate (main_loop desc_map l seen unique_forms duplicates).
Proof.
  induction l as [|f l IH]; intros seen unique_forms duplicates; simpl;
    [reflexivity|].
  destruct (form_signature f) as [s|e]; simpl; [|reflexivity].
  destruct (sig_in s seen); [apply IH|].
  destruct (annotate desc_map f) as [g|e]; simpl; [apply IH|reflexivity].
Qed.

Lemma main_loop_skip (desc_map : dict json) (f : json) (s : signature)
    (l post : list json) :
  form_signature f = Ok s ->
  forall seen unique_forms duplicates,
    In s seen ->
    main_loop desc_map (l ++ f :: post) seen unique_forms duplicates =
    one_more_duplicate (main_loop desc_map (l ++ post) seen unique_forms duplicates).
Proof.
  intros Hs. induction l as [|x l IH]; intros seen unique_forms duplicates Hin.
  - cbn [app main_loop]. rewrite Hs. cbn [bind].
    apply sig_in_true in Hin. rewrite Hin. apply main_loop_one_more.
  - cbn [app main_loop].
    destruct (form_signature x) as [sx|e]; cbn [bind]; [|reflexivity].
    destruct (sig_in sx seen); [now apply IH|].
    destruct (annotate desc_map x) as [g|e]; cbn [bind]; [|reflexivity].
    apply IH. now right.
Qed.

Lemma main_loop_collapse (desc_map : dict json) (f1 f2 : json)
    (pre mid post : list json) :
  form_signature f1 = form_signature f2 ->
  forall seen unique_forms duplicates,
    main_loop desc_map (pre ++ f1 :: mid ++ f2 :: post) seen unique_forms duplicates =
    one_more_duplicate
      (main_loop desc_map (pre ++ f1 :: mid ++ post) seen unique_forms duplicates).
Proof.
  intros Hsig. induction pre as [|x pre IH]; intros seen unique_forms duplicates.
  - cbn [app main_loop].
    destruct (form_signature f1) as [s|e] eqn:H1; cbn [bind]; [|reflexivity].
    symmetry in Hsig. destruct (sig_in s seen) eqn:Hin.
    + apply (main_loop_skip desc_map f2 s mid post Hsig).
      now apply sig_in_true.
    + destruct (annotate desc_map f1) as [g|e]; cbn [bind]; [|reflexivity].
      apply (main_loop_skip desc_map f2 s mid post Hsig). now left.
  - cbn [app main_loop].
    destruct (form_signature x) as [sx|e]; cbn [bind]; [|reflexivity].
    destruct (sig_in sx seen); [apply IH|].
    destruct (annotate desc_map x) as [g|e]; cbn [bind]; [apply IH|reflexivity].
Qed.

(** C7.  The signature of a form does not depend on the order of its
    inputs: two forms with equal action and method whose inputs give the
    same multiset of (name, type, required) triples, in particular two forms
    whose input lists are permutations of each other, have equal signatures;
    when both occur in a catalog the later one is dropped as a duplicate. *)
Theorem signature_invariant_under_input_order (d1 d2 : dict json) :
  dict_get "action" d1 = dict_get "action" d2 ->
  dict_get "method" d1 = dict_get "method" d2 ->
  (forall t1 t2,
      input_triples d1 = Ok t1 -> input_triples d2 = Ok t2 ->
      Permutation t1 t2 ->
      form_signature (JDict d1) = form_signature (JDict d2)) /\
  (forall l1 l2,
      py_get d1 "inputs" = JList l1 -> py_get d2 "inputs" = JList l2 ->
      Permutation l1 l2 ->
      form_signature (JDict d1) = form_signature (JDict d2)) /\
  (form_signature (JDict d1) = form_signature (JDict d2) ->
   forall desc_map pre mid post,
     main_loop desc_map (pre ++ JDict d1 :: mid ++ JDict d2 :: post) [] [] 0 =
     one_more_duplicate
       (main_loop desc_map (pre ++ JDict d1 :: mid ++ post) [] [] 0)).
Proof.
  intros Ha Hm. split; [|split].
  - intros t1 t2 H1 H2 Hp. apply form_signature_same_triples; try assumption.
    rewrite H1, H2. exact Hp.
  - intros l1 l2 H1 H2 Hp. apply form_signature_same_triples; try assumption.
    rewrite (input_triples_of_list d1 l1 H1), (input_triples_of_list d2 l2 H2).
    now apply mapM_input_triple_permutation.
  - intros Hsig desc_map pre mid post. now apply main_loop_collapse.
Qed.

(** ** A second run on the output of the first *)

Lemma split_scheme_rooted (u : string) :
  split_scheme (String "/" u) = (EmptyString, String "/" u).
Proof.
  unfold split_scheme. cbn [partition_char].
  change ("/" =? ":")%char with false. cbv iota.
  destruct (partition_char ":" u) as [[a b]|]; reflexivity.
Qed.

Lemma urlparse_rooted_scheme (t : string) (p : ParseResult) :
  urlparse (String "/" t) = Ok p -> scheme p = "".
Proof.
  unfold urlparse. cbn [lstrip_by].
  change (is_c0_or_space "/") with false. cbv iota.
  cbn [remove_chars]. change (is_tab_or_newline "/") with false. cbv iota.
  rewrite split_scheme_rooted.
  destruct (split_netloc _) as [nl url3].
  destruct (negb (netloc_ok nl)); [discriminate|].
  destruct (split_on "#" url3) as [url4 frag].
  destruct (split_on "?" url4) as [url5 qry].
  match goal with
  | |- context [if ?c then split_params url5 else ?e] =>
      destruct (if c then split_params url5 else e) as [url6 prm]
  end.
  now intros [= <-].
Qed.

Lemma action_path_rooted (t : string) :
  action_path (String "/" t) = String "/" t.
Proof.
  unfold action_path. destruct (urlparse (String "/" t)) as [p|e] eqn:Hp;
    [|reflexivity].
  now rewrite (urlparse_rooted_scheme t p Hp).
Qed.

Lemma normalize_action_stable (t : string) :
  String "/" t = "/" \/ endswith (String "/" t) "/" = false ->
  normalize_action (String "/" t) = String "/" t.
Proof.
  intros H. rewrite normalize_action_unfold by discriminate.
  rewrite action_path_rooted. unfold rooted.
  assert (startswith (String "/" t) "/" = true) as ->
    by (apply startswith_slash; eauto).
  destruct (strip_trailing_slash_cases (String "/" t))
    as [[_ E]|[pre [Hpre [Hne E]]]]; [exact E|].
  destruct H as [H|H].
  - rewrite H in *. destruct pre as [|c [|c' pre]]; simpl in Hpre; congruence.
  - assert (endswith (String "/" t) "/" = true) as Hend
      by (apply endswith_iff; eauto).
    congruence.
Qed.

Lemma attach_description_idempotent
    (desc_map : dict json) (norm_action : string) (f : dict json) :
  attach_description desc_map norm_action
    (attach_description desc_map norm_action f) =
  attach_description desc_map norm_action f.
Proof.
  unfold attach_description.
  destruct (truthy (py_get desc_map norm_action)).
  - apply dict_set_same, dict_get_set_same.
  - destruct (fuzzy_find desc_map norm_action).
    + apply dict_set_same, dict_get_set_same.
    + destruct (dict_get_setdefault "feedback" (JStr "") f) as [w Hw].
      now apply (dict_setdefault_present _ _ w).
Qed.

Lemma normalize_action_value_starts (v : json) (na : string) :
  normalize_action_value v = Ok na -> exists t, na = String "/" t.
Proof.
  unfold normalize_action_value. destruct (negb (truthy v)).
  - intros [= <-]. eauto.
  - destruct v; try discriminate. intros [= <-].
    apply normalize_action_starts.
Qed.

(** An annotated form whose action has no trailing slash is a fixed point
    of the annotation. *)
Lemma annotate_fixed_point (desc_map : dict json) (f : json) (gd : dict json) :
  annotate desc_map f = Ok (JDict gd) ->
  (forall a, dict_get "action" gd = Some (JStr a) ->
             a = "/" \/ endswith a "/" = false) ->
  annotate desc_map (JDict gd) = Ok (JDict gd).
Proof.
  intros Hf Hstable. apply annotate_inv in Hf.
  destruct Hf as [fd [na [_ [Hna Hg]]]]. injection Hg as Hg.
  destruct (normalize_action_value_starts _ _ Hna) as [t Ht].
  assert (dict_get "action" gd = Some (JStr na)) as Haction.
  { rewrite Hg, attach_description_frame by discriminate.
    apply dict_get_set_same. }
  specialize (Hstable na Haction). subst na.
  unfold annotate. cbn [as_dict bind].
  unfold py_get, dict_get_default. rewrite Haction.
  unfold py_or, normalize_action_value. cbn [truthy String.eqb negb].
  rewrite (normalize_action_stable t Hstable). cbn [bind].
  rewrite (dict_set_same _ _ _ Haction).
  rewrite Hg at 1. rewrite attach_description_idempotent. now rewrite <- Hg.
Qed.

Lemma main_loop_fixed (desc_map : dict json) (T : list json) :
  forall (sigs seen : list signature) (unique_forms : list json) (duplicates : nat),
    mapM form_signature T = Ok sigs ->
    NoDup sigs ->
    (forall s, In s sigs -> ~ In s seen) ->
    Forall (fun g => annotate desc_map g = Ok g) T ->
    main_loop desc_map T seen unique_forms duplicates =
    Ok (unique_forms ++ T, duplicates).
Proof.
  induction T as [|g T IH]; intros sigs seen unique_forms duplicates;
    cbn [mapM main_loop].
  - intros _ _ _ _. now rewrite app_nil_r.
  - destruct (form_signature g) as [s|e]; cbn [bind]; [|discriminate].
    destruct (mapM form_signature T) as [sigs'|e] eqn:Hsigs; cbn [bind];
      [|discriminate].
    intros [= <-] Hnodup Hseen Hfix.
    inversion Hnodup as [|? ? Hnotin Hnodup']; subst.
    inversion Hfix as [|? ? Hg Hfix']; subst.
    assert (sig_in s seen = false) as ->
      by (apply sig_in_false, Hseen; now left).
    rewrite Hg. cbn [bind].
    rewrite (IH sigs' (s :: seen) _ _ eq_refl Hnodup'); [| |exact Hfix'].
    + now rewrite <- app_assoc.
    + intros x Hx [<-|Hin]; [contradiction|].
      apply (Hseen x); [now right|exact Hin].
Qed.

Lemma kept_annotated (desc_map : dict json) (forms : list json)
    (idx : list nat) (out : list json) :
  Forall2 (kept desc_map forms) idx out ->
  Forall (fun g => exists f, annotate desc_map f = Ok g) out.
Proof.
  induction 1 as [|i g idx out [f [_ Hg]] _ IH]; constructor; eauto.
Qed.

(** C2 (amended).  A second run with the same attack-surface catalog
    returns the output [T] of the first run unchanged, with the same
    surviving forms in the same order, the same feedback and no duplicate
    removed, whenever the forms of [T] have pairwise distinct signatures and
    no action of [T] other than "/" ends in "/". *)
Theorem consolidate_twice
    (forms : list json) (endpoints : json) (T : list json) (d : nat)
    (sigs : list signature) :
  consolidate forms endpoints = Ok (T, d) ->
  mapM form_signature T = Ok sigs ->
  NoDup sigs ->
  (forall gd a, In (JDict gd) T -> dict_get "action" gd = Some (JStr a) ->
                a = "/" \/ endswith a "/" = false) ->
  consolidate T endpoints = Ok (T, 0).
Proof.
  unfold consolidate.
  destruct (build_description_map endpoints) as [desc_map|e]; cbn [bind];
    [|discriminate].
  intros Hrun Hsigs Hnodup Hstable.
  apply main_loop_first_occurrences in Hrun.
  destruct Hrun as [sigs0 [_ [Hkept _]]]. apply kept_annotated in Hkept.
  rewrite (main_loop_fixed desc_map T sigs [] [] 0 Hsigs Hnodup); auto.
  rewrite Forall_forall in *. intros g Hin.
  destruct (Hkept g Hin) as [f Hf].
  destruct (annotate_frame _ _ _ Hf) as [fd [gd [_ [-> _]]]].
  apply (annotate_fixed_point desc_map f gd Hf).
  intros a. now apply Hstable.
Qed.

(** ** The login scenario *)

(** C1.  On the login scenario the run keeps both forms: their signatures
    are taken from the raw actions "/login" and "http://t/login/", which
    differ.  Both output forms have action "/login" and feedback
    "SQLi risk", and [form_signature] gives them the same signature. *)
Theorem login_scenario_keeps_two_forms :
  consolidate [login_form; login_form_absolute] login_surfaces
    = Ok ([login_kept_first; login_kept_second], 0) /\
  form_signature login_form <> form_signature login_form_absolute /\
  form_signature login_kept_first = form_signature login_kept_second.
Proof.
  split; [vm_compute; reflexivity|].
  split; [vm_compute; discriminate|vm_compute; reflexivity].
Qed.

(** ** The command line program *)


(** ** The scan session *)

Create HintDb scan.

Lemma no_ascan_ret {A : Type} (a : A) : no_ascan (ret a).
Proof. intros s. reflexivity. Qed.

Lemma no_ascan_raise {A : Type} (e : exn) : no_ascan (@raise A e).
Proof. intros s. reflexivity. Qed.

Lemma no_ascan_get_state : no_ascan get_state.
Proof. intros s. reflexivity. Qed.

Lemma no_ascan_logger (lv : level) (m : log_message) : no_ascan (logger lv m).
Proof. intros s. reflexivity. Qed.

Lemma no_ascan_add_endpoint_url (u : string) : no_ascan (add_endpoint_url u).
Proof. intros s. reflexivity. Qed.

Lemma no_ascan_add_subdomain (u : string) : no_ascan (add_subdomain u).
Proof. intros s. reflexivity. Qed.

Lemma no_ascan_append_form (f : json) : no_ascan (append_form f).
Proof. intros s. reflexivity. Qed.

Lemma no_ascan_lift {A : Type} (r : result A) : no_ascan (lift r).
Proof. intros s. destruct r; reflexivity. Qed.

Lemma no_ascan_external {A : Type} (c : call) (answer : list call -> result A) :
  is_ascan_scan c = false -> no_ascan (external c answer).
Proof.
  intros Hc s. unfold external.
  destruct (answer (trace s)); unfold ascan_calls; simpl; now rewrite Hc.
Qed.

Lemma no_ascan_bind {A B : Type} (m : M A) (k : A -> M B) :
  no_ascan m -> (forall a, no_ascan (k a)) -> no_ascan (mbind m k).
Proof.
  intros Hm Hk s. unfold mbind. specialize (Hm s).
  destruct (m s) as [a s'|e s'|]; [|exact Hm|exact I].
  specialize (Hk a s'). destruct (k a s'); congruence.
Qed.

Lemma no_ascan_try {A : Type} (body : M A) (handler : exn -> M A) :
  no_ascan body -> (forall e, no_ascan (handler e)) ->
  no_ascan (try_except body handler).
Proof.
  intros Hm Hk s. unfold try_except. specialize (Hm s).
  destruct (body s) as [a s'|e s'|]; [exact Hm| |exact I].
  specialize (Hk e s'). destruct (handler e s'); congruence.
Qed.

Lemma no_ascan_for_each {A : Type} (l : list A) (body : A -> M unit) :
  (forall x, no_ascan (body x)) -> no_ascan (for_each l body).
Proof.
  intros Hb. induction l as [|x l IH]; simpl.
  - apply no_ascan_ret.
  - apply no_ascan_bind; auto.
Qed.

Lemma halts_ret {A : Type} (a : A) : halts (ret a).
Proof. intros s. discriminate. Qed.

Lemma halts_raise {A : Type} (e : exn) : halts (@raise A e).
Proof. intros s. discriminate. Qed.

Lemma halts_get_state : halts get_state.
Proof. intros s. discriminate. Qed.

Lemma halts_logger (lv : level) (m : log_message) : halts (logger lv m).
Proof. intros s. discriminate. Qed.

Lemma halts_add_subdomain (u : string) : halts (add_subdomain u).
Proof. intros s. discriminate. Qed.

Lemma halts_append_form (f : json) : halts (append_form f).
Proof. intros s. discriminate. Qed.

Lemma halts_lift {A : Type} (r : result A) : halts (lift r).
Proof. intros s. destruct r; discriminate. Qed.

Lemma halts_external {A : Type} (c : call) (answer : list call -> result A) :
  halts (external c answer).
Proof. intros s. unfold external. destruct (answer (trace s)); discriminate. Qed.

Lemma halts_bind {A B : Type} (m : M A) (k : A -> M B) :
  halts m -> (forall a, halts (k a)) -> halts (mbind m k).
Proof.
  intros Hm Hk s. unfold mbind. specialize (Hm s).
  destruct (m s) as [a s'|e s'|]; [apply Hk|discriminate|contradiction].
Qed.

Lemma halts_try {A : Type} (body : M A) (handler : exn -> M A) :
  halts body -> (forall e, halts (handler e)) -> halts (try_except body handler).
Proof.
  intros Hm Hk s. unfold try_except. specialize (Hm s).
  destruct (body s) as [a s'|e s'|]; [discriminate|apply Hk|contradiction].
Qed.

Lemma halts_for_each {A : Type} (l : list A) (body : A -> M unit) :
  (forall x, halts (body x)) -> halts (for_each l body).
Proof.
  intros Hb. induction l as [|x l IH]; simpl.
  - apply halts_ret.
  - apply halts_bind; auto.
Qed.

#[local] Hint Resolve no_ascan_ret no_ascan_raise no_ascan_get_state
  no_ascan_logger no_ascan_add_endpoint_url no_ascan_add_subdomain
  no_ascan_append_form no_ascan_lift halts_ret halts_raise halts_get_state
  halts_logger halts_add_subdomain halts_append_form halts_lift
  halts_external : scan.

(** Walk through a method built from the combinators above. *)
Ltac scan_steps :=
  repeat first
    [ progress auto with scan
    | apply no_ascan_bind; [|intros ?]
    | apply no_ascan_try; [|intros ?]
    | apply no_ascan_for_each; intros ?
    | apply no_ascan_external; reflexivity
    | apply halts_bind; [|intros ?]
    | apply halts_try; [|intros ?]
    | apply halts_for_each; intros ?
    | match goal with
      | |- no_ascan (if ?c then _ else _) => destruct c
      | |- halts (if ?c then _ else _) => destruct c
      | |- no_ascan (match ?e with _ => _ end) => destruct e
      | |- halts (match ?e with _ => _ end) => destruct e
      end ].

Lemma no_ascan_save_results (filename : string) (data : json) :
  no_ascan (save_results filename data).
Proof. unfold save_results. scan_steps. Qed.

Lemma halts_save_results (filename : string) (data : json) :
  halts (save_results filename data).
Proof. unfold save_results. scan_steps. Qed.

#[local] Hint Resolve no_ascan_save_results halts_save_results : scan.

Lemma no_ascan_validate_url : no_ascan validate_url.
Proof. unfold validate_url. scan_steps. Qed.

Lemma no_ascan_analyze_endpoint (url : string) : no_ascan (analyze_endpoint url).
Proof. unfold analyze_endpoint. scan_steps. Qed.

Lemma no_ascan_spider_monitor (fuel : nat) (scan_id : string) :
  no_ascan (spider_monitor fuel scan_id).
Proof.
  induction fuel as [|n IH]; simpl; [intros s; exact I|]. scan_steps.
Qed.

#[local] Hint Resolve no_ascan_validate_url no_ascan_analyze_endpoint
  no_ascan_spider_monitor : scan.

Lemma no_ascan_crawl (fuel : nat) : no_ascan (crawl fuel).
Proof. unfold crawl. scan_steps. Qed.

Lemma no_ascan_enumerate_subdomains : no_ascan enumerate_subdomains.
Proof. unfold enumerate_subdomains. scan_steps. Qed.

Lemma halts_enumerate_subdomains : halts enumerate_subdomains.
Proof. unfold enumerate_subdomains. scan_steps. Qed.

Lemma no_ascan_analyze_structure : no_ascan analyze_structure.
Proof. unfold analyze_structure. scan_steps. Qed.

Lemma halts_analyze_structure : halts analyze_structure.
Proof. unfold analyze_structure. scan_steps. Qed.

(** A phase that halts and logs what it catches always returns. *)
Lemma try_logger_returns (body : M unit) (lv : level) (msg : exn -> log_message) :
  halts (try_except body (fun e => logger lv (msg e))) ->
  forall s, exists s', try_except body (fun e => logger lv (msg e)) s = Done tt s'.
Proof.
  intros Hb s. specialize (Hb s). unfold try_except in *.
  destruct (body s) as [[] s'|e s'|].
  - now exists s'.
  - now exists (with_log lv (msg e) s').
  - now elim Hb.
Qed.

Lemma enumerate_subdomains_returns (s : scanner) :
  exists s', enumerate_subdomains s = Done tt s'.
Proof. apply try_logger_returns, halts_enumerate_subdomains. Qed.

Lemma analyze_structure_returns (s : scanner) :
  exists s', analyze_structure s = Done tt s'.
Proof. apply try_logger_returns, halts_analyze_structure. Qed.


(** * Further properties *)

(** ** The runs of the command line program *)

(** Every run of [main] is of one of three kinds: an input file is missing,
    an exception escapes, or the run succeeds. *)
Lemma main_cases (args : arguments) (now : string) (fs : filesystem) :
  (path_exists fs (arg_structure args) && path_exists fs (arg_endpoints args)
     = false /\
   out_files (main args now fs) = fs /\ out_status (main args now fs) = 0%Z) \/
  (path_exists fs (arg_structure args) && path_exists fs (arg_endpoints args)
     = true /\
   exists printed, main args now fs = uncaught fs printed) \/
  (path_exists fs (arg_structure args) && path_exists fs (arg_endpoints args)
     = true /\
   exists sd unique_forms loaded duplicates,
     successful_run args now fs (main args now fs) sd unique_forms loaded
       duplicates).
Proof.
  unfold main, successful_run.
  destruct (path_exists fs (arg_structure args)); cbn [negb andb];
    [|left; auto].
  destruct (path_exists fs (arg_endpoints args)); cbn [negb];
    [|left; auto].
  right.
  destruct (load_json fs (arg_structure args)) as [structure|e] eqn:Hs;
    cbn [bind]; [|left; split; [reflexivity|eexists; reflexivity]].
  destruct (load_json fs (arg_endpoints args)) as [endpoints|e] eqn:He;
    cbn [bind]; [|left; split; [reflexivity|eexists; reflexivity]].
  destruct structure as [| | | | |sd]; cbn [as_dict bind]; try solve [left; split; [reflexivity|eexists; reflexivity]].
  destruct (py_len (dict_get_default "forms" (JList []) sd)) as [n|e] eqn:Hn;
    cbn [bind]; [|left; split; [reflexivity|eexists; reflexivity]].
  destruct (build_description_map endpoints) as [desc_map|e] eqn:Hd;
    cbn [bind]; [|left; split; [reflexivity|eexists; reflexivity]].
  destruct (py_iter (dict_get_default "forms" (JList []) sd)) as [fl|e] eqn:Hf;
    cbn [bind]; [|left; split; [reflexivity|eexists; reflexivity]].
  destruct (main_loop desc_map fl [] [] 0) as [[unique_forms duplicates]|e]
    eqn:Hl; [|left; split; [reflexivity|eexists; reflexivity]].
  right. split; [reflexivity|].
  exists sd, unique_forms, n, duplicates, endpoints, desc_map, fl.
  repeat (split; [assumption || reflexivity|]).
  destruct (arg_backup args); cbn [app]; reflexivity.
Qed.

Lemma append_not_self (s t : string) : t <> "" -> (s ++ t)%string <> s.
Proof.
  intros Ht H. apply Ht. induction s as [|c s IH]; simpl in H.
  - exact H.
  - injection H as H. now apply IH.
Qed.

Lemma backup_path_differs (p now : string) : (p ++ ".bak." ++ now)%string <> p.
Proof. apply append_not_self. discriminate. Qed.

Lemma py_len_iter (j : json) (n : nat) (l : list json) :
  py_len j = Ok n -> py_iter j = Ok l -> List.length l = n.
Proof.
  destruct j; simpl; try discriminate; intros [= <-] [= <-].
  - induction s as [|c s IH]; simpl; congruence.
  - reflexivity.
  - apply length_map.
Qed.

(** X1.  A run of [main] leaves every file other than the structure file
    and its backup as it was; in particular the endpoints file is only
    read. *)
Theorem main_touches_two_files
    (args : arguments) (now : string) (fs : filesystem) (p : string) :
  p <> arg_structure args ->
  p <> (arg_structure args ++ ".bak." ++ now)%string ->
  dict_get p (out_files (main args now fs)) = dict_get p fs.
Proof.
  intros Hs Hb.
  destruct (main_cases args now fs)
    as [[_ [-> _]]|[[_ [printed ->]]|[_ [sd [u [n [d Hrun]]]]]]];
    try reflexivity.
  destruct Hrun as [endpoints [desc_map [fl [_ [_ [_ [_ [_ [_ ->]]]]]]]]].
  cbn [out_files]. unfold save_json.
  rewrite dict_get_set_other by exact Hs.
  destruct (arg_backup args); [|reflexivity].
  now rewrite dict_get_set_other by exact Hb.
Qed.


(** X3.  A successful run with [--backup] leaves, under the name
    [structure_path + '.bak.' + timestamp], the document that the structure
    file held before the run. *)
Theorem main_backup_holds_original
    (args : arguments) (now : string) (fs : filesystem) :
  arg_backup args = true ->
  path_exists fs (arg_structure args) = true ->
  path_exists fs (arg_endpoints args) = true ->
  out_status (main args now fs) = 0%Z ->
  exists original,
    dict_get (arg_structure args) fs = Some (FileJson original) /\
    load_json (out_files (main args now fs))
      (arg_structure args ++ ".bak." ++ now)%string = Ok original /\
    In (BackupSaved (arg_structure args ++ ".bak." ++ now)%string)
      (out_printed (main args now fs)).
Proof.
  intros Hb Hs He Hstatus.
  destruct (main_cases args now fs)
    as [[Hex _]|[[_ [printed Hrun]]|[_ [sd [u [n [d Hrun]]]]]]].
  - rewrite Hs, He in Hex. discriminate.
  - rewrite Hrun in Hstatus. discriminate.
  - destruct Hrun as [endpoints [desc_map [fl [Hload [_ [_ [_ [_ [_ ->]]]]]]]]].
    exists (JDict sd). rewrite Hb. cbn [out_files out_printed].
    split; [|split].
    + unfold load_json in Hload.
      destruct (dict_get (arg_structure args) fs) as [[j|]|];
        try discriminate. now injection Hload as ->.
    + unfold load_json, save_json.
      rewrite dict_get_set_other by apply backup_path_differs.
      now rewrite dict_get_set_same.
    + simpl. auto.
Qed.


(** ** When the loop returns *)

Lemma annotate_defined (desc_map : dict json) (f : json) (s : signature) :
  form_signature f = Ok s -> exists g, annotate desc_map f = Ok g.
Proof.
  destruct f as [| | | | |d]; try discriminate.
  rewrite form_signature_unfold. unfold annotate, py_get, dict_get_default.
  cbn [as_dict bind].
  destruct (dict_get "action" d) as [[| | |a| |]|]; cbn [str_strip bind];
    try discriminate; intros _.
  - unfold py_or. cbn [truthy]. destruct (a =? "")%string eqn:Ea;
      cbn [negb normalize_action_value truthy String.eqb bind]; [eauto|].
    unfold normalize_action_value. cbn [truthy]. rewrite Ea. cbn [negb bind].
    eauto.
  - cbn. eauto.
Qed.

Lemma main_loop_defined (desc_map : dict json) (forms : list json) :
  forall (sigs seen : list signature) (unique_forms : list json) (duplicates : nat),
    mapM form_signature forms = Ok sigs ->
    exists out d, main_loop desc_map forms seen unique_forms duplicates = Ok (out, d).
Proof.
  induction forms as [|f forms IH]; intros sigs seen unique_forms duplicates;
    cbn [mapM main_loop].
  - eauto.
  - destruct (form_signature f) as [s|e] eqn:Hs; cbn [bind]; [|discriminate].
    destruct (mapM form_signature forms) as [sigs'|e]; cbn [bind];
      [|discriminate].
    intros _. destruct (sig_in s seen); [now apply (IH sigs')|].
    destruct (annotate_defined desc_map f s Hs) as [g ->]. cbn [bind].
    now apply (IH sigs').
Qed.

(** X5.  The loop of [main] returns exactly when every form of the catalog
    has a signature: once [form_signature] has accepted a form, normalizing
    its action and attaching a description cannot raise. *)
Theorem main_loop_returns_iff_signatures
    (desc_map : dict json) (forms : list json) :
  (exists out d, main_loop desc_map forms [] [] 0 = Ok (out, d)) <->
  (exists sigs, mapM form_signature forms = Ok sigs).
Proof.
  split.
  - intros [out [d H]]. apply main_loop_first_occurrences in H.
    destruct H as [sigs [H _]]. eauto.
  - intros [sigs H]. now apply (main_loop_defined desc_map forms sigs).
Qed.

(** ** What every surviving form carries *)

Lemma attach_description_has_feedback
    (desc_map : dict json) (norm_action : string) (f : dict json) :
  exists v, dict_get "feedback" (attach_description desc_map norm_action f) = Some v.
Proof.
  unfold attach_description.
  destruct (truthy (py_get desc_map norm_action)).
  - eexists. apply dict_get_set_same.
  - destruct (fuzzy_find desc_map norm_action).
    + eexists. apply dict_get_set_same.
    + apply dict_get_setdefault.
Qed.

Lemma annotate_action (desc_map : dict json) (f : json) (gd : dict json) :
  annotate desc_map f = Ok (JDict gd) ->
  exists fd na,
    f = JDict fd /\
    normalize_action_value (py_or (py_get fd "action") (JStr "")) = Ok na /\
    dict_get "action" gd = Some (JStr na) /\
    gd = attach_description desc_map na (dict_set "action" (JStr na) fd).
Proof.
  intros H. apply annotate_inv in H. destruct H as [fd [na [-> [Hna Hg]]]].
  injection Hg as ->. exists fd, na. repeat split; try assumption.
  rewrite attach_description_frame by discriminate. apply dict_get_set_same.
Qed.

(** X6.  Every form that the loop outputs is a dict with an [action] that
    is a string beginning with "/" and with a [feedback] key: the field is
    never left absent. *)
Theorem survivors_have_action_and_feedback
    (desc_map : dict json) (forms out : list json) (duplicates : nat) :
  main_loop desc_map forms [] [] 0 = Ok (out, duplicates) ->
  Forall
    (fun g =>
       exists gd a v,
         g = JDict gd /\
         dict_get "action" gd = Some (JStr a) /\ startswith a "/" = true /\
         dict_get "feedback" gd = Some v)
    out.
Proof.
  intros H. apply main_loop_first_occurrences in H.
  destruct H as [sigs [_ [Hkept _]]]. apply kept_annotated in Hkept.
  eapply Forall_impl; [|exact Hkept]. intros g [f Hf].
  destruct (annotate_frame _ _ _ Hf) as [fd0 [gd [_ [-> _]]]].
  destruct (annotate_action _ _ _ Hf) as [fd [na [_ [Hna [Ha Hg]]]]].
  destruct (attach_description_has_feedback desc_map na
              (dict_set "action" (JStr na) fd)) as [v Hv].
  exists gd, na, v. repeat split; try assumption.
  - apply startswith_slash. now apply (normalize_action_value_starts _ _ Hna).
  - now rewrite Hg.
Qed.

(** ** Which description is attached *)

Lemma endswith_refl (s : string) : endswith s s = true.
Proof. apply endswith_iff. now exists EmptyString. Qed.

Lemma dict_get_in {V : Type} (k : string) (v : V) (d : dict V) :
  dict_get k d = Some v -> In (k, v) d.
Proof.
  induction d as [|[k' v'] r IH]; simpl; [discriminate|].
  destruct (String.eqb_spec k' k) as [->|_].
  - intros [= ->]. now left.
  - intros H. right. now apply IH.
Qed.

Lemma fuzzy_find_none (items : dict json) (na : string) :
  fuzzy_find items na = None <->
  forall p v, In (p, v) items -> related p na = true -> truthy v = false.
Proof.
  unfold related. induction items as [|[q w] r IH]; simpl.
  - split; [intros _ p v []|reflexivity].
  - destruct ((endswith q na || endswith na q) && truthy w) eqn:E.
    + split; [discriminate|]. intros H.
      apply andb_true_iff in E. destruct E as [E1 E2].
      rewrite (H q w (or_introl eq_refl) E1) in E2. discriminate.
    + rewrite IH. split.
      * intros H p v [[= <- <-]|Hin] Hrel.
        -- rewrite Hrel in E. exact E.
        -- now apply (H p v).
      * intros H p v Hin. apply H. now right.
Qed.

Lemma fuzzy_find_first (items : dict json) (na : string) (v : json) :
  fuzzy_find items na = Some v <->
  exists pre p post,
    items = pre ++ (p, v) :: post /\
    related p na = true /\ truthy v = true /\
    forall q w, In (q, w) pre -> related q na = true -> truthy w = false.
Proof.
  unfold related. induction items as [|[q w] r IH]; simpl.
  - split; [discriminate|]. intros [pre [p [post [H _]]]].
    destruct pre; discriminate.
  - destruct ((endswith q na || endswith na q) && truthy w) eqn:E.
    + apply andb_true_iff in E. destruct E as [E1 E2]. split.
      * intros [= <-]. exists [], q, r. repeat split; auto. intros ? ? [].
      * intros [[|[q' w'] pre] [p [post [H [Hrel [Hv Hpre]]]]]].
        -- simpl in H. now injection H as _ -> _.
        -- simpl in H. injection H as <- <- _.
           rewrite (Hpre q w (or_introl eq_refl) E1) in E2. discriminate.
    + rewrite IH. split.
      * intros [pre [p [post [-> [Hrel [Hv Hpre]]]]]].
        exists ((q, w) :: pre), p, post. repeat split; auto.
        intros q' w' [[= <- <-]|Hin] Hr.
        -- rewrite Hr in E. exact E.
        -- now apply (Hpre q' w').
      * intros [[|[q' w'] pre] [p [post [H [Hrel [Hv Hpre]]]]]].
        -- simpl in H. injection H as <- <- _.
           rewrite Hrel, Hv in E. discriminate.
        -- simpl in H. injection H as <- <- ->.
           exists pre, p, post. repeat split; auto.
           intros q' w' Hin. apply Hpre. now right.
Qed.

Lemma annotate_exact_match
    (desc_map : dict json) (f : json) (gd : dict json) (a : string) (v : json) :
  annotate desc_map f = Ok (JDict gd) ->
  dict_get "action" gd = Some (JStr a) ->
  dict_get a desc_map = Some v ->
  truthy v = true ->
  dict_get "feedback" gd = Some v.
Proof.
  intros Hf Ha Hv Ht.
  destruct (annotate_action _ _ _ Hf) as [fd [na [_ [_ [Ha' ->]]]]].
  rewrite attach_description_frame in Ha by discriminate.
  rewrite dict_get_set_same in Ha. injection Ha as ->.
  unfold attach_description, py_get, dict_get_default. rewrite Hv, Ht.
  apply dict_get_set_same.
Qed.

(** X7.  An exact match has priority: when the index holds a non-empty
    description under the normalized action of a kept form, that
    description becomes the feedback, whatever the other entries are. *)
Theorem exact_match_has_priority
    (desc_map : dict json) (f : json) (gd : dict json) (a : string) (v : json) :
  annotate desc_map f = Ok (JDict gd) ->
  dict_get "action" gd = Some (JStr a) ->
  dict_get a desc_map = Some v ->
  truthy v = true ->
  dict_get "feedback" gd = Some v.
Proof. apply annotate_exact_match. Qed.

(** X8.  Without an exact match the feedback is the description of the
    first entry of the index, in insertion order, whose key is a suffix of
    the normalized action or has it as a suffix and whose description is
    non-empty. *)
Theorem fuzzy_match_takes_first_entry
    (desc_map : dict json) (f : json) (gd : dict json) (a : string)
    (pre post : dict json) (p : string) (v : json) :
  annotate desc_map f = Ok (JDict gd) ->
  dict_get "action" gd = Some (JStr a) ->
  truthy (py_get desc_map a) = false ->
  desc_map = pre ++ (p, v) :: post ->
  related p a = true -> truthy v = true ->
  (forall q w, In (q, w) pre -> related q a = true -> truthy w = false) ->
  dict_get "feedback" gd = Some v.
Proof.
  intros Hf Ha Hexact Hmap Hrel Hv Hpre.
  destruct (annotate_action _ _ _ Hf) as [fd [na [_ [_ [Ha' ->]]]]].
  rewrite attach_description_frame in Ha by discriminate.
  rewrite dict_get_set_same in Ha. injection Ha as ->.
  unfold attach_description. rewrite Hexact.
  assert (fuzzy_find desc_map a = Some v) as ->.
  { apply fuzzy_find_first. exists pre, p, post. auto. }
  apply dict_get_set_same.
Qed.

(** X9.  When no entry of the index with a non-empty description is related
    to the normalized action, the run keeps the feedback the form already
    had, and sets it to the empty string when the form had none. *)
Theorem unmatched_form_keeps_feedback
    (desc_map : dict json) (fd gd : dict json) (a : string) :
  annotate desc_map (JDict fd) = Ok (JDict gd) ->
  dict_get "action" gd = Some (JStr a) ->
  (forall p v, In (p, v) desc_map -> related p a = true -> truthy v = false) ->
  dict_get "feedback" gd = Some (dict_get_default "feedback" (JStr "") fd).
Proof.
  intros Hf Ha Hnone.
  destruct (annotate_action _ _ _ Hf) as [fd' [na [Hfd [_ [Ha' ->]]]]].
  injection Hfd as <-.
  rewrite attach_description_frame in Ha by discriminate.
  rewrite dict_get_set_same in Ha. injection Ha as ->.
  unfold attach_description.
  assert (truthy (py_get desc_map a) = false) as ->.
  { unfold py_get, dict_get_default.
    destruct (dict_get a desc_map) as [v|] eqn:Hv; [|reflexivity].
    apply (Hnone a v); [now apply dict_get_in|].
    unfold related. now rewrite endswith_refl. }
  assert (fuzzy_find desc_map a = None) as -> by now apply fuzzy_find_none.
  unfold dict_setdefault, dict_mem, dict_get_default.
  rewrite dict_get_set_other by discriminate.
  destruct (dict_get "feedback" fd) as [w|] eqn:Hw.
  - rewrite dict_get_set_other by discriminate. exact Hw.
  - apply dict_get_set_same.
Qed.

(** ** More on [normalize_action] *)

(** X10.  Normalizing twice is normalizing once, unless the path being
    normalized ends in "//". *)
Theorem normalize_action_idempotent (a : string) :
  endswith (action_path a) "//" = false ->
  normalize_action (normalize_action a) = normalize_action a.
Proof.
  intros Hpath. destruct (string_dec a "") as [->|Ha]; [reflexivity|].
  destruct (normalize_action_starts a) as [t Ht]. rewrite Ht.
  apply normalize_action_stable. rewrite <- Ht.
  rewrite (normalize_action_unfold a Ha).
  destruct (rooted_starts (action_path a)) as [r Hr].
  assert (endswith (rooted (action_path a)) "//" = false) as Hrooted.
  { destruct (endswith (rooted (action_path a)) "//") eqn:Hd; [|reflexivity].
    apply rooted_double_slash in Hd. congruence. }
  rewrite Hr in *. now apply strip_trailing_slash_rooted.
Qed.

Lemma break_at_rest (p : ascii -> bool) (s a b : string) :
  break_at p s = (a, b) ->
  b = "" \/ exists c t, b = String c t /\ p c = true.
Proof.
  revert a b. induction s as [|c s IH]; intros a b; simpl.
  - intros [= <- <-]. now left.
  - destruct (p c) eqn:Hc.
    + intros [= <- <-]. right. eauto.
    + destruct (break_at p s) as [a' b']. intros [= <- <-]. now apply (IH a').
Qed.

Lemma split_on_first (c x : ascii) (t a b : string) :
  split_on c (String x t) = (a, b) ->
  (x = c /\ a = "") \/ (x <> c /\ exists a', a = String x a').
Proof.
  unfold split_on. cbn [partition_char].
  destruct (Ascii.eqb_spec x c) as [->|Hx].
  - intros [= <- <-]. now left.
  - destruct (partition_char c t) as [[a' b']|]; intros [= <- <-];
      right; eauto.
Qed.

Lemma rsplit_slash_rooted (t : string) :
  exists h r, rsplit_slash (String "/" t) = (String "/" h, r).
Proof.
  cbn [rsplit_slash]. destruct (rsplit_slash t) as [h r].
  destruct h as [|c h]; [|eauto].
  change ("/" =? "/")%char with true. cbv iota. eauto.
Qed.

Lemma split_params_rooted (t a b : string) :
  split_params (String "/" t) = (a, b) -> exists a', a = String "/" a'.
Proof.
  unfold split_params.
  destruct (rsplit_slash_rooted t) as [h [r ->]].
  destruct (partition_char ";" r) as [[x y]|]; intros [= <- <-]; simpl; eauto.
Qed.

Lemma split_netloc_cases (url : string) :
  (exists t, url = String "/" (String "/" t) /\
             split_netloc url = break_at is_netloc_delim t) \/
  split_netloc url = (EmptyString, url).
Proof.
  destruct url as [|c1 [|c2 t]]; try (now right).
  - destruct c1 as [[] [] [] [] [] [] [] []]; now right.
  - destruct c1 as [[] [] [] [] [] [] [] []]; try (now right).
    destruct c2 as [[] [] [] [] [] [] [] []]; try (now right).
    left. eauto.
Qed.

(** The path of a parsed URL with a network location is empty or begins
    with a slash. *)
Lemma urlparse_path_rooted (u : string) (p : ParseResult) :
  urlparse u = Ok p -> netloc p <> "" -> rooted_or_empty (path p).
Proof.
  unfold urlparse, rooted_or_empty.
  destruct (split_scheme _) as [sch url2].
  destruct (split_netloc url2) as [nl url3] eqn:Hnl.
  destruct (negb (netloc_ok nl)); [discriminate|].
  destruct (split_on "#" url3) as [url4 frag] eqn:H4.
  destruct (split_on "?" url4) as [url5 qry] eqn:H5.
  match goal with
  | |- context [if ?c then split_params url5 else ?e] =>
      destruct (if c then split_params url5 else e) as [url6 prm] eqn:H6
  end.
  intros [= <-]. cbn [netloc path]. intros Hne.
  assert (url3 = "" \/ exists c t, url3 = String c t /\ is_netloc_delim c = true)
    as H3.
  { destruct (split_netloc_cases url2) as [[t [_ Ht]]|Ht];
      rewrite Ht in Hnl.
    - now apply break_at_rest in Hnl.
    - injection Hnl as <- _. now elim Hne. }
  assert (rooted_or_empty url5) as Hr5.
  { unfold rooted_or_empty. destruct H3 as [->|[c [t [-> Hc]]]].
    - injection H4 as <- _. injection H5 as <- _. now left.
    - destruct (split_on_first _ _ _ _ _ H4) as [[-> ->]|[Hc4 [a4 ->]]].
      + injection H5 as <- _. now left.
      + destruct (split_on_first _ _ _ _ _ H5) as [[-> ->]|[Hc5 [a5 ->]]];
          [now left|].
        right. exists a5. f_equal. unfold is_netloc_delim in Hc.
        apply orb_true_iff in Hc. destruct Hc as [Hc|Hc].
        * apply orb_true_iff in Hc. destruct Hc as [Hc|Hc].
          -- now apply Ascii.eqb_eq in Hc.
          -- apply Ascii.eqb_eq in Hc. contradiction.
        * apply Ascii.eqb_eq in Hc. contradiction. }
  destruct Hr5 as [->|[t ->]].
  - left. destruct (_ && _); [|now injection H6 as <- _].
    now injection H6 as <- _.
  - right. destruct (_ && _); [|injection H6 as <- _; eauto].
    now apply split_params_rooted in H6.
Qed.

Lemma urlparse_empty : exists p, urlparse "" = Ok p /\ netloc p = "".
Proof. eexists. split; reflexivity. Qed.

Lemma normalize_action_absolute (u : string) (p : ParseResult) :
  urlparse u = Ok p ->
  scheme p <> "" -> netloc p <> "" ->
  normalize_action u = url_path p.
Proof.
  intros Hp Hs Hn.
  assert (u <> "") as Hu.
  { intros ->. destruct urlparse_empty as [p0 [H0 Hn0]]. congruence. }
  pose proof (urlparse_path_rooted u p Hp Hn) as Hr.
  rewrite (normalize_action_unfold u Hu). unfold action_path, url_path.
  rewrite Hp.
  apply String.eqb_neq in Hs, Hn. rewrite Hs, Hn. cbn [negb andb].
  f_equal. unfold rooted.
  destruct Hr as [->|[t ->]]; cbn [String.eqb].
  - assert (startswith "/" "/" = true) as -> by (apply startswith_slash; eauto).
    reflexivity.
  - assert (startswith (String "/" t) "/" = true) as ->
      by (apply startswith_slash; eauto).
    reflexivity.
Qed.

(** X11.  For an absolute URL, [normalize_action] computes the key under
    which [build_description_map] files the same URL: a form whose action is
    spelled as the URL of an alert meets that alert by exact match. *)
Theorem absolute_action_matches_index_key (u : string) (p : ParseResult) :
  urlparse u = Ok p ->
  scheme p <> "" -> netloc p <> "" ->
  normalize_action u = url_path p.
Proof. apply normalize_action_absolute. Qed.

(** ** An alert and a form with the same URL *)

Lemma description_index_lookup
    (d : dict json) (pre post : list json) (item : dict json)
    (key : string) (desc : json) (m : dict json) :
  py_iter (dict_get_default "attack_surfaces" (JList []) d)
    = Ok (pre ++ JDict item :: post) ->
  surface_entry item = Some (key, desc) ->
  (forall later v, In (JDict later) post -> surface_entry later <> Some (key, v)) ->
  build_description_map (JDict d) = Ok m ->
  dict_get key m = Some desc.
Proof.
  intros Hitems Hentry Hpost. unfold build_description_map.
  rewrite Hitems. cbn [bind]. rewrite add_surfaces_app.
  destruct (add_surfaces [] pre) as [m0|e]; cbn [bind]; [|discriminate].
  cbn [add_surfaces add_surface as_dict bind]. rewrite Hentry. cbn [bind].
  destruct (add_surfaces (dict_set key desc m0) post) as [m1|e] eqn:Hm1;
    cbn [bind]; [|discriminate].
  destruct (py_iter (dict_get_default "endpoints" (JList []) d)) as [es|e];
    cbn [bind]; [|discriminate].
  intros [= <-]. apply add_endpoints_keep.
  rewrite (add_surfaces_other_keys key post Hpost _ _ Hm1).
  apply dict_get_set_same.
Qed.

(** X12.  A form whose action is the absolute URL of an alert receives the
    description of that alert as feedback, when the description is
    non-empty and no later alert has the same normalized path. *)
Theorem form_with_alert_url_gets_description
    (d : dict json) (pre post : list json) (item : dict json)
    (u : string) (p : ParseResult) (desc : json) (m fd gd : dict json) :
  py_iter (dict_get_default "attack_surfaces" (JList []) d)
    = Ok (pre ++ JDict item :: post) ->
  py_get item "url" = JStr u ->
  urlparse u = Ok p -> scheme p <> "" -> netloc p <> "" ->
  py_get item "description" = desc -> truthy desc = true ->
  (forall later v, In (JDict later) post ->
                   surface_entry later <> Some (url_path p, v)) ->
  build_description_map (JDict d) = Ok m ->
  dict_get "action" fd = Some (JStr u) ->
  annotate m (JDict fd) = Ok (JDict gd) ->
  dict_get "action" gd = Some (JStr (url_path p)) /\
  dict_get "feedback" gd = Some desc.
Proof.
  intros Hitems Hurl Hp Hs Hn Hdesc Ht Hpost Hm Ha Hg.
  assert (u <> "") as Hu.
  { intros ->. destruct urlparse_empty as [p0 [H0 Hn0]]. congruence. }
  assert (surface_entry item = Some (url_path p, desc)) as Hentry.
  { unfold surface_entry, py_or. rewrite Hurl, Hdesc, Ht. cbn [truthy].
    apply String.eqb_neq in Hu. rewrite Hu. cbn [negb truthy].
    rewrite Hu. cbn [negb]. now rewrite Hp. }
  pose proof (description_index_lookup d pre post item _ desc m
                Hitems Hentry Hpost Hm) as Hlookup.
  assert (dict_get "action" gd = Some (JStr (url_path p))) as Haction.
  { destruct (annotate_action _ _ _ Hg) as [fd' [na [Hfd [Hna [Hga _]]]]].
    injection Hfd as <-. rewrite Hga. do 2 f_equal.
    unfold py_get, dict_get_default, py_or in Hna. rewrite Ha in Hna.
    cbn [truthy] in Hna. apply String.eqb_neq in Hu. rewrite Hu in Hna.
    unfold normalize_action_value in Hna. cbn [truthy negb] in Hna.
    rewrite Hu in Hna. cbn [negb] in Hna. injection Hna as <-.
    now apply normalize_action_absolute. }
  split; [exact Haction|].
  now apply (annotate_exact_match m (JDict fd) gd (url_path p) desc).
Qed.

(** ** The method in a signature *)

Lemma upper_empty (m : string) : (m =? "")%string = true -> upper m = "".
Proof. intros H. apply String.eqb_eq in H. now subst. Qed.

Lemma method_signature (m : string) :
  str_upper_strip (py_or (JStr m) (JStr "")) = Ok (strip (upper m)).
Proof.
  unfold py_or. cbn [truthy]. destruct (m =? "")%string eqn:E; cbn [negb].
  - now rewrite (upper_empty m E).
  - reflexivity.
Qed.

(** X13.  The signature reads the method up to letter case and surrounding
    whitespace: two forms that differ only in that ("post", " POST ") have
    the same signature. *)
Theorem signature_ignores_method_case (d : dict json) (m1 m2 : string) :
  strip (upper m1) = strip (upper m2) ->
  form_signature (JDict (dict_set "method" (JStr m1) d)) =
  form_signature (JDict (dict_set "method" (JStr m2) d)).
Proof.
  intros H. rewrite !form_signature_unfold.
  unfold input_triples, py_get, dict_get_default.
  rewrite !dict_get_set_same.
  rewrite !(dict_get_set_other "action" "method") by discriminate.
  rewrite !(dict_get_set_other "inputs" "method") by discriminate.
  now rewrite !method_signature, H.
Qed.

(** ** Forms written by the scanner *)

Lemma input_triple_of_tag (with_details : bool) (input : tag) :
  input_triple
    (JDict
       ([("name", JStr (dict_get_default "name" "" input));
         ("type", JStr (dict_get_default "type" "text" input))]
        ++ (if with_details
            then [("id", JStr (dict_get_default "id" "" input));
                  ("required", JBool (dict_mem "required" input))]
            else [])))
  = Ok (tag_triple with_details input).
Proof.
  unfold input_triple, tag_triple, py_or, py_get.
  cbn [as_dict bind app dict_get_default dict_get String.eqb Ascii.eqb Bool.eqb].
  destruct (dict_get_default "name" "" input) as [|c n];
    destruct (dict_get_default "type" "text" input) as [|c' t];
    destruct with_details; reflexivity.
Qed.

Lemma py_iter_or_list (l : list json) :
  py_iter (py_or (JList l) (JList [])) = Ok l.
Proof. destruct l; reflexivity. Qed.

Lemma form_data_signature (with_details : bool) (f : html_form) :
  form_signature (form_data_of with_details f) =
  Ok (strip (dict_get_default "action" "" (form_tag f)),
      strip (upper (dict_get_default "method" "get" (form_tag f))),
      sorted (map (tag_triple with_details) (input_tags f))).
Proof.
  unfold form_data_of. rewrite form_signature_unfold.
  unfold input_triples, py_get.
  cbn [dict_get_default dict_get String.eqb Ascii.eqb Bool.eqb str_strip bind].
  rewrite method_signature. cbn [bind].
  assert (forall l,
             mapM input_triple
               (map
                  (fun input : tag =>
                     JDict
                       ([("name", JStr (dict_get_default "name" "" input));
                         ("type", JStr (dict_get_default "type" "text" input))]
                        ++ (if with_details
                            then [("id", JStr (dict_get_default "id" "" input));
                                  ("required",
                                   JBool (dict_mem "required" input))]
                            else []))) l)
             = Ok (map (tag_triple with_details) l)) as Hmap.
  { induction l as [|x l IH]; [reflexivity|].
    cbn [map mapM]. rewrite input_triple_of_tag, IH. reflexivity. }
  rewrite py_iter_or_list. cbn [bind]. rewrite Hmap. reflexivity.
Qed.

(** X14.  Every form record that the scanner writes, by [analyze_endpoint]
    or by [analyze_structure], has a signature; so the consolidation loop
    returns on any catalog made of such records. *)
Theorem scanner_forms_have_signatures
    (desc_map : dict json) (fs : list (bool * html_form)) :
  (forall with_details f,
      form_signature (form_data_of with_details f) =
      Ok (strip (dict_get_default "action" "" (form_tag f)),
          strip (upper (dict_get_default "method" "get" (form_tag f))),
          sorted (map (tag_triple with_details) (input_tags f)))) /\
  exists out d,
    main_loop desc_map (map (fun x => form_data_of (fst x) (snd x)) fs) [] [] 0
      = Ok (out, d).
Proof.
  split; [apply form_data_signature|].
  assert (exists sigs,
             mapM form_signature
               (map (fun x => form_data_of (fst x) (snd x)) fs) = Ok sigs)
    as [sigs Hsigs].
  { induction fs as [|[b f] fs [sigs IH]]; [now exists []|].
    cbn [map mapM fst snd]. rewrite form_data_signature, IH. cbn [bind]. eauto. }
  now apply (main_loop_defined desc_map _ sigs).
Qed.

(** X15.  The record that [analyze_endpoint] writes for an HTML form and the
    one that [analyze_structure] writes for the same form have the same
    signature exactly when no input of the form has the [required]
    attribute. *)
Theorem details_keep_signature_iff_not_required (f : html_form) :
  form_signature (form_data_of true f) = form_signature (form_data_of false f)
  <->
  forall input, In input (input_tags f) -> dict_mem "required" input = false.
Proof.
  rewrite !form_data_signature. split.
  - intros H input Hin. injection H as H.
    assert (Permutation (map (tag_triple true) (input_tags f))
              (map (tag_triple false) (input_tags f))) as Hp.
    { rewrite <- (sorted_perm (map (tag_triple true) (input_tags f))), H.
      apply sorted_perm. }
    apply (Permutation_map snd) in Hp.
    assert (In (dict_mem "required" input)
              (map snd (map (tag_triple false) (input_tags f)))) as Hin'.
    { apply (Permutation_in _ Hp). rewrite map_map.
      apply in_map_iff. exists input. split; [reflexivity|exact Hin]. }
    rewrite map_map in Hin'. apply in_map_iff in Hin'.
    destruct Hin' as [x [Hx _]]. now rewrite <- Hx.
  - intros H. do 3 f_equal. apply map_ext_in. intros input Hin.
    unfold tag_triple. now rewrite (H input Hin).
Qed.

(** ** Building the index never stops on a URL *)

Lemma py_or_stored (x : json) : stored_description (py_or x (JStr "")).
Proof.
  unfold stored_description, py_or. destruct (truthy x) eqn:E; auto.
Qed.

Lemma dict_set_values {V : Type} (P : V -> Prop) (k : string) (v : V)
    (d : dict V) :
  Forall (fun kv => P (snd kv)) d -> P v ->
  Forall (fun kv => P (snd kv)) (dict_set k v d).
Proof.
  intros Hd Hv. induction Hd as [|[k' v'] r Hkv Hr IH]; simpl.
  - repeat constructor. exact Hv.
  - destruct (k' =? k)%string; constructor; auto.
Qed.

Lemma surface_entry_stored (item : dict json) (k : string) (v : json) :
  surface_entry item = Some (k, v) -> stored_description v.
Proof.
  unfold surface_entry.
  destruct (negb (truthy (py_or (py_get item "url") (JStr "")))); [discriminate|].
  destruct (py_or (py_get item "url") (JStr "")); try discriminate.
  destruct (urlparse s); [|discriminate].
  intros [= _ <-]. apply py_or_stored.
Qed.

Lemma add_surfaces_dicts (items : list json) :
  Forall (fun item => exists d, item = JDict d) items ->
  forall m,
    Forall (fun kv => stored_description (snd kv)) m ->
    exists m', add_surfaces m items = Ok m' /\
               Forall (fun kv => stored_description (snd kv)) m'.
Proof.
  induction 1 as [|item items [d ->] _ IH]; intros m Hm; simpl; [eauto|].
  unfold add_surface. cbn [as_dict bind].
  destruct (surface_entry d) as [[k v]|] eqn:Hentry; cbn [bind].
  - apply IH. apply dict_set_values; [exact Hm|].
    now apply (surface_entry_stored d k v).
  - now apply IH.
Qed.

Lemma add_endpoints_stored (es : list json) :
  forall m,
    Forall (fun kv => stored_description (snd kv)) m ->
    Forall (fun kv => stored_description (snd kv)) (fold_left add_endpoint es m).
Proof.
  induction es as [|e es IH]; intros m Hm; simpl; [exact Hm|].
  apply IH. unfold add_endpoint.
  destruct (endpoint_url e) as [u|]; [|exact Hm].
  destruct (urlparse u) as [p|]; [|exact Hm].
  cbv zeta. destruct (dict_mem (url_path p) m); [exact Hm|].
  apply dict_set_values; [exact Hm|]. now right.
Qed.

(** X16.  When every record of [attack_surfaces] is a dict and both lists
    can be iterated, [build_description_map] returns an index whatever the
    URLs are: a missing, malformed or unparsable URL skips its record, it
    never aborts the construction.  Every description stored is non-empty or
    the empty string.  A document that is not a dict gives the empty
    index. *)
Theorem description_index_skips_bad_urls
    (d : dict json) (items es : list json) :
  py_iter (dict_get_default "attack_surfaces" (JList []) d) = Ok items ->
  Forall (fun item => exists id, item = JDict id) items ->
  py_iter (dict_get_default "endpoints" (JList []) d) = Ok es ->
  (exists m,
      build_description_map (JDict d) = Ok m /\
      Forall (fun kv => stored_description (snd kv)) m) /\
  (forall doc, (forall d', doc <> JDict d') -> build_description_map doc = Ok []).
Proof.
  intros Hitems Hdicts Hes. split.
  - unfold build_description_map. rewrite Hitems, Hes. cbn [bind].
    destruct (add_surfaces_dicts items Hdicts [] (Forall_nil _)) as [m [-> Hm]].
    cbn [bind]. eexists. split; [reflexivity|].
    now apply add_endpoints_stored.
  - intros doc Hdoc. destruct doc; try reflexivity. now elim (Hdoc d0).
Qed.

(** ** Signature classes *)

Lemma first_index (s : signature) (sigs : list signature) :
  In s sigs -> exists i, first_occurrence sigs i /\ nth_error sigs i = Some s.
Proof.
  unfold first_occurrence. induction sigs as [|a sigs IH]; [intros []|].
  intros Hin. destruct (signature_eq_dec a s) as [->|Hne].
  - exists 0. split; [|reflexivity]. exists s. split; [reflexivity|]. lia.
  - destruct Hin as [->|Hin]; [now elim Hne|].
    destruct (IH Hin) as [i [[s' [Hs' Hfirst]] Hi]].
    exists (S i). split; [|exact Hi]. exists s. simpl. split; [exact Hi|].
    intros [|j] Hj; simpl; [congruence|].
    assert (s' = s) as -> by congruence. apply Hfirst. lia.
Qed.

Lemma first_occurrence_unique (sigs : list signature) (i j : nat) :
  first_occurrence sigs i -> first_occurrence sigs j ->
  nth_error sigs i = nth_error sigs j -> i = j.
Proof.
  intros [s [Hs Hi]] [s' [Hs' Hj]] Heq.
  assert (s' = s) as -> by congruence.
  destruct (Nat.lt_trichotomy i j) as [H|[H|H]]; [|exact H|].
  - now elim (Hj i H).
  - now elim (Hi j H).
Qed.

Lemma StronglySorted_lt_NoDup (l : list nat) : StronglySorted lt l -> NoDup l.
Proof.
  induction 1 as [|a l Hl IH Ha]; constructor; [|exact IH].
  intros Hin. rewrite Forall_forall in Ha. specialize (Ha a Hin). lia.
Qed.

Lemma first_occurrences_all (sigs : list signature) :
  NoDup sigs -> first_occurrences sigs = seq 0 (List.length sigs).
Proof.
  intros Hnd. unfold first_occurrences. apply forallb_filter_id.
  apply forallb_forall. intros i Hi. apply in_seq in Hi.
  apply first_occurrenceb_spec. unfold first_occurrence.
  destruct (nth_error sigs i) as [s|] eqn:Hs.
  - exists s. split; [reflexivity|]. intros j Hj Hsj.
    rewrite NoDup_nth_error in Hnd.
    assert (j = i); [|lia]. apply Hnd; [lia|congruence].
  - apply nth_error_None in Hs. lia.
Qed.


(** * Further properties of the scan session *)

Section Keeps.

Variable R : scanner -> scanner -> Prop.
Hypothesis R_refl : forall s, R s s.
Hypothesis R_trans : forall a b c, R a b -> R b c -> R a c.

Lemma keeps_ret {A : Type} (a : A) : keeps R (ret a).
Proof. intros s. apply R_refl. Qed.

Lemma keeps_raise {A : Type} (e : exn) : keeps R (@raise A e).
Proof. intros s. apply R_refl. Qed.

Lemma keeps_get_state : keeps R get_state.
Proof. intros s. apply R_refl. Qed.

Lemma keeps_lift {A : Type} (r : result A) : keeps R (lift r).
Proof. intros s. destruct r; apply R_refl. Qed.

Lemma keeps_bind {A B : Type} (m : M A) (k : A -> M B) :
  keeps R m -> (forall a, keeps R (k a)) -> keeps R (mbind m k).
Proof.
  intros Hm Hk s. unfold mbind. specialize (Hm s).
  destruct (m s) as [a s'|e s'|]; [|exact Hm|exact I].
  specialize (Hk a s'). destruct (k a s'); eauto.
Qed.

Lemma keeps_try {A : Type} (body : M A) (handler : exn -> M A) :
  keeps R body -> (forall e, keeps R (handler e)) ->
  keeps R (try_except body handler).
Proof.
  intros Hm Hk s. unfold try_except. specialize (Hm s).
  destruct (body s) as [a s'|e s'|]; [exact Hm| |exact I].
  specialize (Hk e s'). destruct (handler e s'); eauto.
Qed.

Lemma keeps_for_each {A : Type} (l : list A) (body : A -> M unit) :
  (forall x, keeps R (body x)) -> keeps R (for_each l body).
Proof.
  intros Hb. induction l as [|x l IH]; simpl.
  - apply keeps_ret.
  - apply keeps_bind; auto.
Qed.

Lemma keeps_external {A : Type} (c : call) (answer : list call -> result A) :
  (forall s, R s (mkScanner (target_url s) (output_dir s)
                    (discovered_endpoints s) (subdomains s) (forms s)
                    (attack_surfaces s) (log s) (c :: trace s))) ->
  keeps R (external c answer).
Proof.
  intros H s. unfold external. destruct (answer (trace s)); apply H.
Qed.

End Keeps.

Lemma same_collections_refl (s : scanner) : same_collections s s.
Proof. unfold same_collections. auto 7. Qed.

Lemma same_collections_trans (a b c : scanner) :
  same_collections a b -> same_collections b c -> same_collections a c.
Proof. unfold same_collections. intuition congruence. Qed.

Lemma only_grows_refl (s : scanner) : only_grows s s.
Proof.
  unfold only_grows. repeat split; try apply incl_refl;
    try (exists []; now rewrite ?app_nil_r).
Qed.

Lemma only_grows_trans (a b c : scanner) :
  only_grows a b -> only_grows b c -> only_grows a c.
Proof.
  unfold only_grows.
  intros [Ht [Ho [He [Hs [[lf Hf] [[la Ha] [[ll Hl] [lt Htr]]]]]]]]
         [Ht' [Ho' [He' [Hs' [[lf' Hf'] [[la' Ha'] [[ll' Hl'] [lt' Htr']]]]]]]].
  repeat split; try congruence.
  - eapply incl_tran; eassumption.
  - eapply incl_tran; eassumption.
  - exists (lf ++ lf'). rewrite Hf', Hf. now rewrite app_assoc.
  - exists (la ++ la'). rewrite Ha', Ha. now rewrite app_assoc.
  - exists (ll ++ ll'). rewrite Hl', Hl. now rewrite app_assoc.
  - exists (lt' ++ lt). rewrite Htr', Htr. now rewrite app_assoc.
Qed.

Lemma same_logger (lv : level) (m : log_message) :
  keeps same_collections (logger lv m).
Proof. intros s. unfold same_collections. cbn. auto 7. Qed.

Lemma same_external {A : Type} (c : call) (answer : list call -> result A) :
  keeps same_collections (external c answer).
Proof.
  apply keeps_external. intros s. unfold same_collections. cbn. auto 7.
Qed.

Lemma set_add_incl (x : string) (l : list string) : incl l (set_add x l).
Proof.
  unfold set_add. destruct (in_dec string_dec x l); [apply incl_refl|].
  now apply incl_appl, incl_refl.
Qed.

Lemma grows_logger (lv : level) (m : log_message) : keeps only_grows (logger lv m).
Proof.
  intros s. unfold only_grows. cbn.
  repeat split; try apply incl_refl;
    try (exists []; now rewrite ?app_nil_r).
  now exists [(lv, m)].
Qed.

Lemma grows_external {A : Type} (c : call) (answer : list call -> result A) :
  keeps only_grows (external c answer).
Proof.
  apply keeps_external. intros s. unfold only_grows. cbn.
  repeat split; try apply incl_refl;
    try (exists []; now rewrite ?app_nil_r).
  now exists [c].
Qed.

Lemma grows_add_endpoint_url (u : string) : keeps only_grows (add_endpoint_url u).
Proof.
  intros s. unfold only_grows. cbn.
  repeat split; try apply incl_refl; try apply set_add_incl;
    try (exists []; now rewrite ?app_nil_r).
Qed.

Lemma grows_add_subdomain (u : string) : keeps only_grows (add_subdomain u).
Proof.
  intros s. unfold only_grows. cbn.
  repeat split; try apply incl_refl; try apply set_add_incl;
    try (exists []; now rewrite ?app_nil_r).
Qed.

Lemma grows_append_form (f : json) : keeps only_grows (append_form f).
Proof.
  intros s. unfold only_grows. cbn.
  repeat split; try apply incl_refl;
    try (exists []; now rewrite ?app_nil_r).
  now exists [f].
Qed.

Lemma grows_append_attack_surface (a : json) :
  keeps only_grows (append_attack_surface a).
Proof.
  intros s. unfold only_grows. cbn.
  repeat split; try apply incl_refl;
    try (exists []; now rewrite ?app_nil_r).
  now exists [a].
Qed.

#[local] Hint Resolve same_logger same_external grows_logger
  grows_external grows_add_endpoint_url grows_add_subdomain grows_append_form
  grows_append_attack_surface : scan.

(** Walk through a method for a relation [keeps R], given that [R] is
    reflexive and transitive. *)
Ltac keeps_steps refl trans :=
  repeat first
    [ progress auto with scan
    | apply (keeps_ret _ refl)
    | apply (keeps_raise _ refl)
    | apply (keeps_get_state _ refl)
    | apply (keeps_lift _ refl)
    | apply (keeps_bind _ trans); [|intros ?]
    | apply (keeps_try _ trans); [|intros ?]
    | apply (keeps_for_each _ refl trans); intros ?
    | match goal with
      | |- keeps _ (if ?c then _ else _) => destruct c
      | |- keeps _ (match ?e with _ => _ end) => destruct e
      end ].

Ltac same_steps := keeps_steps same_collections_refl same_collections_trans.
Ltac grows_steps := keeps_steps only_grows_refl only_grows_trans.

Lemma same_validate_url : keeps same_collections validate_url.
Proof. unfold validate_url. same_steps. Qed.

Lemma same_save_results (filename : string) (data : json) :
  keeps same_collections (save_results filename data).
Proof. unfold save_results. same_steps. Qed.

Lemma same_ascan_monitor (fuel : nat) (ascan_id : string) :
  keeps same_collections (ascan_monitor fuel ascan_id).
Proof.
  induction fuel as [|n IH]; simpl; [intros s; exact I|]. same_steps.
Qed.

Lemma grows_save_results (filename : string) (data : json) :
  keeps only_grows (save_results filename data).
Proof. unfold save_results. grows_steps. Qed.

Lemma grows_spider_monitor (fuel : nat) (scan_id : string) :
  keeps only_grows (spider_monitor fuel scan_id).
Proof.
  induction fuel as [|n IH]; simpl; [intros s; exact I|]. grows_steps.
Qed.

Lemma grows_ascan_monitor (fuel : nat) (ascan_id : string) :
  keeps only_grows (ascan_monitor fuel ascan_id).
Proof.
  induction fuel as [|n IH]; simpl; [intros s; exact I|]. grows_steps.
Qed.

#[local] Hint Resolve grows_save_results grows_spider_monitor
  grows_ascan_monitor : scan.

Lemma grows_run_scan (fuel : nat) : keeps only_grows (run_scan fuel).
Proof.
  unfold run_scan, discover_endpoints, crawl, active_scan, analyze_endpoint,
    enumerate_subdomains, analyze_structure, validate_url.
  grows_steps.
Qed.

(** X18.  A scan session only adds: whatever happens, [run_scan] leaves the
    target and the output directory as they were, never removes an endpoint,
    a subdomain, a form or an attack surface already collected, and only
    appends to the log and to the sequence of external calls. *)
Theorem run_scan_only_adds (fuel : nat) (s s' : scanner) :
  run_scan fuel s = Done tt s' \/ (exists e, run_scan fuel s = Raised e s') ->
  only_grows s s'.
Proof.
  intros H. pose proof (grows_run_scan fuel s) as Hg.
  destruct H as [H|[e H]]; rewrite H in Hg; exact Hg.
Qed.

(** ** Validation *)

Lemma urlparse_raises_value_error (u : string) (e : exn) :
  urlparse u = Raise e -> e = ValueError.
Proof.
  unfold urlparse.
  destruct (split_scheme _) as [sch url2].
  destruct (split_netloc url2) as [nl url3].
  destruct (negb (netloc_ok nl)); [now intros [= <-]|].
  destruct (split_on "#" url3) as [url4 frag].
  destruct (split_on "?" url4) as [url5 qry].
  match goal with
  | |- context [if ?c then split_params url5 else ?x] =>
      destruct (if c then split_params url5 else x) as [url6 prm]
  end.
  discriminate.
Qed.

(** X19.  A target whose scheme is neither [http] nor [https], or that
    cannot be parsed, is rejected before any request is sent: the error is
    logged, [validate_url] returns [False], and no external call is made. *)
Theorem validate_url_rejects_scheme_offline (s : scanner) :
  (forall p, urlparse (target_url s) = Ok p ->
             existsb (String.eqb (scheme p)) ["http"; "https"] = false) ->
  validate_url s = Done false (with_log ERROR URLValueError s).
Proof.
  intros H. unfold validate_url, mbind, get_state, try_except, lift.
  destruct (urlparse (target_url s)) as [p|e] eqn:Hp.
  - cbn [ret]. rewrite (H p eq_refl). reflexivity.
  - apply urlparse_raises_value_error in Hp. subst e. reflexivity.
Qed.

Lemma validate_url_outcome (s : scanner) :
  match validate_url s with
  | Done _ s' =>
      trace s' = trace s \/ trace s' = HttpGet (target_url s) :: trace s
  | Raised e s' =>
      (trace s' = trace s \/ trace s' = HttpGet (target_url s) :: trace s) /\
      e <> RequestException /\ e <> ValueError
  | Polling => False
  end.
Proof.
  unfold validate_url, mbind, get_state, try_except, lift, external.
  destruct (urlparse (target_url s)) as [p|e] eqn:Hp; cbn [ret raise].
  - destruct (existsb (String.eqb (scheme p)) ["http"; "https"]);
      cbn [ret raise logger]; [|now left].
    cbn [trace with_log].
    destruct (requests_get W (trace s) (target_url s)) as [resp|e].
    + destruct (status_code resp <? 400)%Z; cbn; now right.
    + destruct e; cbn; repeat split; auto; discriminate.
  - apply urlparse_raises_value_error in Hp. subst e. cbn. now left.
Qed.

(** X20.  A failed validation is fatal and leaves nothing behind: when
    [validate_url] returns [False], [run_scan] returns at once; nothing has
    been collected, no scan engine call has been made and no file written
    (the only external call possible is the one GET of the target). *)
Theorem failed_validation_is_fatal (fuel : nat) (s s' : scanner) :
  validate_url (with_log INFO (StartingScan (target_url s)) s) = Done false s' ->
  run_scan fuel s = Done tt s' /\
  same_collections s s' /\
  (trace s' = trace s \/ trace s' = HttpGet (target_url s) :: trace s).
Proof.
  intros H. split; [|split].
  - unfold run_scan, mbind, get_state. cbn [logger]. now rewrite H.
  - pose proof (same_validate_url
                  (with_log INFO (StartingScan (target_url s)) s)) as Hs.
    rewrite H in Hs. exact Hs.
  - pose proof (validate_url_outcome
                  (with_log INFO (StartingScan (target_url s)) s)) as Ht.
    rewrite H in Ht. exact Ht.
Qed.

Lemma try_logger_never_raises
    (body : M unit) (lv : level) (msg : exn -> log_message)
    (s s' : scanner) (e : exn) :
  try_except body (fun e => logger lv (msg e)) s <> Raised e s'.
Proof.
  unfold try_except. destruct (body s); discriminate.
Qed.

(** X21.  After validation no exception leaves the session: if [run_scan]
    raises, the exception was raised by the request of [validate_url] and is
    neither a [RequestException] nor a [ValueError]; the three phase methods
    log what they catch and return. *)
Theorem only_validation_errors_escape
    (fuel : nat) (s s' : scanner) (e : exn) :
  run_scan fuel s = Raised e s' ->
  validate_url (with_log INFO (StartingScan (target_url s)) s) = Raised e s' /\
  e <> RequestException /\ e <> ValueError.
Proof.
  unfold run_scan, mbind, get_state. cbn [logger].
  pose proof (validate_url_outcome
                (with_log INFO (StartingScan (target_url s)) s)) as Ht.
  destruct (validate_url (with_log INFO (StartingScan (target_url s)) s))
    as [[] sv|e' sv|]; try discriminate.
  - destruct (discover_endpoints fuel sv) as [[] s1|e1 s1|] eqn:H1;
      try discriminate.
    + destruct (enumerate_subdomains_returns s1) as [s2 ->].
      destruct (analyze_structure_returns s2) as [s3 ->]. discriminate.
    + now apply try_logger_never_raises in H1.
  - intros [= <- <-]. tauto.
Qed.

(** ** Form extraction *)

Lemma mbind_done {A B : Type} (m : M A) (k : A -> M B) (s s' : scanner) (b : B) :
  mbind m k s = Done b s' ->
  exists a s1, m s = Done a s1 /\ k a s1 = Done b s'.
Proof.
  unfold mbind. destruct (m s) as [a s1|e s1|]; try discriminate. eauto.
Qed.

Lemma append_forms_loop (g : html_form -> json) (fs : list html_form) :
  forall s,
    for_each fs (fun f => append_form (g f)) s =
    Done tt (mkScanner (target_url s) (output_dir s) (discovered_endpoints s)
               (subdomains s) (forms s ++ map g fs) (attack_surfaces s)
               (log s) (trace s)).
Proof.
  induction fs as [|f fs IH]; intros s; cbn [for_each map].
  - unfold ret. rewrite app_nil_r. now destruct s.
  - unfold mbind, append_form. rewrite IH. cbn. now rewrite <- app_assoc.
Qed.

(** X22.  [analyze_endpoint] never raises and fetches the page once.  When
    the page is fetched and parsed it appends one record per form tag, in
    page order; when the fetch or the parse fails it leaves the forms as
    they were and logs a warning that names the URL. *)
Theorem analyze_endpoint_extracts_forms (url : string) (s : scanner) :
  exists s',
    analyze_endpoint url s = Done tt s' /\
    trace s' = HttpGet url :: trace s /\
    discovered_endpoints s' = discovered_endpoints s /\
    match requests_get W (trace s) url with
    | Ok (mkResponse _ (Ok page)) =>
        forms s' = forms s ++ map (form_data_of true) page /\ log s' = log s
    | Ok (mkResponse _ (Raise e)) | Raise e =>
        forms s' = forms s /\ log s' = log s ++ [(WARNING, AnalyzeError url e)]
    end.
Proof.
  unfold analyze_endpoint, try_except, mbind, external.
  destruct (requests_get W (trace s) url) as [[code [page|e]]|e];
    cbn [page_forms lift ret raise logger].
  - rewrite append_forms_loop. eexists. split; [reflexivity|]. cbn. auto.
  - eexists. split; [reflexivity|]. cbn. auto.
  - eexists. split; [reflexivity|]. cbn. auto.
Qed.

Lemma analyze_endpoint_step (url : string) (s : scanner) :
  exists s',
    analyze_endpoint url s = Done tt s' /\
    trace s' = HttpGet url :: trace s /\
    discovered_endpoints s' = discovered_endpoints s.
Proof.
  unfold analyze_endpoint, try_except, mbind, external.
  destruct (requests_get W (trace s) url) as [[code [page|e]]|e];
    cbn [page_forms lift ret raise logger].
  - rewrite append_forms_loop. eexists. split; [reflexivity|]. cbn. auto.
  - eexists. split; [reflexivity|]. cbn. auto.
  - eexists. split; [reflexivity|]. cbn. auto.
Qed.

(** ** Crawling *)

Lemma set_add_in (x y : string) (l : list string) :
  In x (set_add y l) <-> x = y \/ In x l.
Proof.
  unfold set_add. destruct (in_dec string_dec y l) as [Hin|Hnot].
  - split; [auto|]. intros [->|H]; assumption.
  - rewrite in_app_iff. simpl. intuition.
Qed.

Lemma collect_loop (urls : list string) :
  forall s,
    exists s',
      for_each urls
        (fun url =>
           add_endpoint_url url ;;; logger INFO (Discovered url) ;;;
           analyze_endpoint url) s = Done tt s' /\
      (forall u, In u (discovered_endpoints s') <->
                 In u (discovered_endpoints s) \/ In u urls) /\
      (forall c, In c (trace s) \/ (exists u, c = HttpGet u /\ In u urls) ->
                 In c (trace s')).
Proof.
  induction urls as [|url urls IH]; intros s; cbn [for_each].
  - exists s. split; [reflexivity|]. split.
    + intros u. simpl. tauto.
    + intros c [H|[u [_ []]]]. exact H.
  - unfold mbind at 1 2 3. cbn [add_endpoint_url logger with_log].
    match goal with
    | |- context [analyze_endpoint url ?st] =>
        destruct (analyze_endpoint_step url st) as [s1 [-> [Ht He]]]
    end.
    unfold with_log in Ht, He.
    cbn [trace discovered_endpoints target_url output_dir subdomains forms
           attack_surfaces log] in Ht, He.
    destruct (IH s1) as [s' [Hrun [Hmem Htrace]]]. exists s'.
    split; [exact Hrun|]. split.
    + intros u. rewrite Hmem, He, set_add_in. simpl. intuition.
    + intros c Hc. apply Htrace. rewrite Ht. simpl.
      destruct Hc as [Hc|[u [-> [<-|Hu]]]]; eauto.
Qed.

Lemma same_spider_monitor (fuel : nat) (scan_id : string) :
  keeps same_collections (spider_monitor fuel scan_id).
Proof.
  induction fuel as [|n IH]; simpl; [intros s; exact I|]. same_steps.
Qed.

(** X23.  When the crawl returns, the endpoints collected are those held
    before together with every URL of the spider's result list, and each of
    those URLs has been fetched for form extraction. *)
Theorem crawl_collects_spider_results (fuel : nat) (s s' : scanner) :
  crawl fuel s = Done tt s' ->
  exists scan_id h urls,
    zap_spider_results W h scan_id = Ok urls /\
    (forall u, In u (discovered_endpoints s') <->
               In u (discovered_endpoints s) \/ In u urls) /\
    (forall u, In u urls -> In (HttpGet u) (trace s')).
Proof.
  unfold crawl. intros H.
  apply mbind_done in H. destruct H as [s0 [s1 [H0 H]]].
  injection H0 as <- <-.
  apply mbind_done in H. destruct H as [[] [s2 [H0 H]]].
  injection H0 as <-.
  apply mbind_done in H. destruct H as [ctx [s3 [H3 H]]].
  apply mbind_done in H. destruct H as [[] [s4 [H4 H]]].
  apply mbind_done in H. destruct H as [scan_id [s5 [H5 H]]].
  apply mbind_done in H. destruct H as [[] [s6 [H6 H]]].
  apply mbind_done in H. destruct H as [urls [s7 [H7 H]]].
  assert (discovered_endpoints s7 = discovered_endpoints s) as Hsame.
  { pose proof (same_external (ZapNewContext "scan_context")
                  (fun h => zap_new_context W h "scan_context")
                  (with_log INFO StartingDiscovery s)) as E3.
    rewrite H3 in E3.
    pose proof (same_external
                  (ZapIncludeInContext "scan_context"
                     ("^" ++ target_url s ++ ".*$")%string)
                  (fun h => zap_include_in_context W h "scan_context"
                              ("^" ++ target_url s ++ ".*$")%string) s3) as E4.
    rewrite H4 in E4.
    pose proof (same_external (ZapSpiderScan (target_url s))
                  (fun h => zap_spider_scan W h (target_url s)) s4) as E5.
    rewrite H5 in E5.
    pose proof (same_spider_monitor fuel scan_id s5) as E6. rewrite H6 in E6.
    pose proof (same_external (ZapSpiderResults scan_id)
                  (fun h => zap_spider_results W h scan_id) s6) as E7.
    rewrite H7 in E7.
    unfold same_collections in *. cbn in E3. intuition congruence. }
  exists scan_id, (trace s6), urls. split.
  - unfold external in H7.
    destruct (zap_spider_results W (trace s6) scan_id); [|discriminate].
    now injection H7 as <- _.
  - destruct (collect_loop urls s7) as [s8 [Hrun [Hmem Htrace]]].
    rewrite Hrun in H. injection H as <-. split.
    + intros u. now rewrite Hmem, Hsame.
    + intros u Hu. apply Htrace. right. eauto.
Qed.

(** ** Polling *)

Lemma external_done {A : Type} (c : call) (answer : list call -> result A)
    (s s' : scanner) (a : A) :
  external c answer s = Done a s' ->
  answer (trace s) = Ok a /\
  s' = mkScanner (target_url s) (output_dir s) (discovered_endpoints s)
         (subdomains s) (forms s) (attack_surfaces s) (log s) (c :: trace s).
Proof.
  unfold external. destruct (answer (trace s)); [|discriminate].
  now intros [= <- <-].
Qed.

Lemma lift_done {A : Type} (r : result A) (s s' : scanner) (a : A) :
  lift r s = Done a s' -> r = Ok a /\ s' = s.
Proof. destruct r; [|discriminate]. now intros [= <- <-]. Qed.

Lemma spider_monitor_done (fuel : nat) (scan_id : string) :
  forall s s',
    spider_monitor fuel scan_id s = Done tt s' ->
    exists h st v,
      trace s' = ZapSpiderStatus scan_id :: h /\
      zap_spider_status W h scan_id = Ok st /\
      py_int st = Ok v /\ (100 <= v)%Z.
Proof.
  induction fuel as [|n IH]; intros s s' H; cbn [spider_monitor] in H;
    [discriminate|].
  apply mbind_done in H. destruct H as [st [s1 [H1 H]]].
  apply mbind_done in H. destruct H as [v [s2 [H2 H]]].
  apply external_done in H1. destruct H1 as [Hst ->].
  apply lift_done in H2. destruct H2 as [Hv ->].
  destruct (Z.ltb_spec v 100) as [Hlt|Hge].
  - apply mbind_done in H. destruct H as [progress [s3 [_ H]]].
    apply mbind_done in H. destruct H as [[] [s4 [_ H]]].
    now apply IH in H.
  - injection H as <-. cbn [trace]. exists (trace s), st, v. auto.
Qed.

Lemma ascan_monitor_done (fuel : nat) (ascan_id : string) :
  forall s s',
    ascan_monitor fuel ascan_id s = Done tt s' ->
    exists h st v,
      trace s' = ZapAscanStatus ascan_id :: h /\
      zap_ascan_status W h ascan_id = Ok st /\
      py_int st = Ok v /\ (100 <= v)%Z.
Proof.
  induction fuel as [|n IH]; intros s s' H; cbn [ascan_monitor] in H;
    [discriminate|].
  apply mbind_done in H. destruct H as [st [s1 [H1 H]]].
  apply mbind_done in H. destruct H as [v [s2 [H2 H]]].
  apply external_done in H1. destruct H1 as [Hst ->].
  apply lift_done in H2. destruct H2 as [Hv ->].
  destruct (Z.ltb_spec v 100) as [Hlt|Hge].
  - apply mbind_done in H. destruct H as [progress [s3 [_ H]]].
    apply mbind_done in H. destruct H as [[] [s4 [_ H]]].
    now apply IH in H.
  - injection H as <-. cbn [trace]. exists (trace s), st, v. auto.
Qed.

(** X24.  A polling loop ends only on a status reading of at least 100: when
    the spider monitor or the active-scan monitor returns, its last external
    call is a status call whose answer [int()] reads as a number not below
    100. *)
Theorem monitors_return_at_100 (fuel : nat) (id : string) (s s' : scanner) :
  spider_monitor fuel id s = Done tt s' \/ ascan_monitor fuel id s = Done tt s' ->
  exists h st v,
    (trace s' = ZapSpiderStatus id :: h /\ zap_spider_status W h id = Ok st \/
     trace s' = ZapAscanStatus id :: h /\ zap_ascan_status W h id = Ok st) /\
    py_int st = Ok v /\ (100 <= v)%Z.
Proof.
  intros [H|H].
  - destruct (spider_monitor_done fuel id s s' H) as [h [st [v [Ht [Hs [Hv Hge]]]]]].
    exists h, st, v. auto.
  - destruct (ascan_monitor_done fuel id s s' H) as [h [st [v [Ht [Hs [Hv Hge]]]]]].
    exists h, st, v. auto.
Qed.

(** ** Active scanning *)

Lemma append_attack_surfaces_loop (alerts : list (dict json)) :
  forall s,
    for_each alerts (fun alert => append_attack_surface (attack_surface_of alert)) s
    = Done tt (mkScanner (target_url s) (output_dir s) (discovered_endpoints s)
                 (subdomains s) (forms s)
                 (attack_surfaces s ++ map attack_surface_of alerts)
                 (log s) (trace s)).
Proof.
  induction alerts as [|a alerts IH]; intros s; cbn [for_each map].
  - unfold ret. rewrite app_nil_r. now destruct s.
  - unfold mbind, append_attack_surface. rewrite IH. cbn.
    now rewrite <- app_assoc.
Qed.

Lemma save_results_step (filename : string) (data : json) (s : scanner) :
  exists s',
    save_results filename data s = Done tt s' /\
    trace s' = WriteFile (output_dir s ++ "/" ++ filename)%string data :: trace s /\
    same_collections s s'.
Proof.
  unfold save_results, try_except, mbind, get_state, external.
  destruct (write_file W (trace s) _ data) as [[]|e]; cbn [logger];
    eexists; (split; [reflexivity|]); cbn; unfold same_collections; cbn;
    auto 7.
Qed.


(** ** Subdomain probing *)

Lemma mbind_step {A B : Type} (m : M A) (k : A -> M B) (s s1 : scanner) (a : A) :
  m s = Done a s1 -> mbind m k s = k a s1.
Proof. intros H. unfold mbind. now rewrite H. Qed.

Lemma probe_step (domain prefix : string) (s : scanner) :
  exists s1,
    try_except
      (resp <~ external (HttpGet ("https://" ++ candidate domain prefix)%string)
                 (fun h => requests_get W h
                             ("https://" ++ candidate domain prefix)%string) ;;
       if (status_code resp <? 400)%Z
       then add_subdomain (candidate domain prefix) ;;;
            logger INFO (FoundSubdomain (candidate domain prefix))
       else ret tt)
      (fun _ => ret tt) s = Done tt s1 /\
    trace s1 = probe_call domain prefix :: trace s /\
    output_dir s1 = output_dir s /\
    subdomains s1 =
      (if accepted (trace s) ("https://" ++ candidate domain prefix)%string
       then set_add (candidate domain prefix) (subdomains s)
       else subdomains s).
Proof.
  unfold try_except, mbind, external, accepted, probe_call.
  destruct (requests_get W (trace s) _) as [resp|e].
  - destruct (status_code resp <? 400)%Z; cbn; eexists;
      (split; [reflexivity|]); cbn; auto.
  - cbn. eexists. split; [reflexivity|]. cbn. auto.
Qed.

Lemma probe_loop (domain : string) (l : list string) :
  forall s,
    exists s',
      for_each l
        (fun prefix =>
           let subdomain := (prefix ++ "." ++ domain)%string in
           try_except
             (resp <~ external (HttpGet ("https://" ++ subdomain)%string)
                        (fun h => requests_get W h ("https://" ++ subdomain)%string) ;;
              if (status_code resp <? 400)%Z
              then add_subdomain subdomain ;;; logger INFO (FoundSubdomain subdomain)
              else ret tt)
             (fun _ => ret tt)) s = Done tt s' /\
      trace s' = rev (map (probe_call domain) l) ++ trace s /\
      output_dir s' = output_dir s /\
      forall x,
        In x (subdomains s') <->
        In x (subdomains s) \/
        exists i prefix,
          nth_error l i = Some prefix /\ x = candidate domain prefix /\
          accepted (rev (map (probe_call domain) (firstn i l)) ++ trace s)
            ("https://" ++ x)%string = true.
Proof.
  induction l as [|prefix l IH]; intros s; cbn [for_each].
  - exists s. repeat split; auto.
    intros [H|[i [prefix [H _]]]]; [exact H|]. destruct i; discriminate.
  - destruct (probe_step domain prefix s) as [s1 [Hstep [Ht [Ho Hs]]]].
    cbv zeta. fold (candidate domain prefix).
    rewrite (mbind_step _ _ _ _ _ Hstep).
    destruct (IH s1) as [s' [Hrun [Ht' [Ho' Hmem]]]]. exists s'.
    split; [exact Hrun|]. split; [|split].
    + rewrite Ht', Ht. cbn [map rev]. now rewrite <- app_assoc.
    + congruence.
    + intros x. rewrite Hmem. clear Hmem.
      assert (In x (subdomains s1) <->
              In x (subdomains s) \/
              (x = candidate domain prefix /\
               accepted (trace s) ("https://" ++ candidate domain prefix)%string
                 = true)) as Hs1.
      { rewrite Hs. destruct (accepted _ _).
        - rewrite set_add_in. intuition.
        - intuition discriminate. }
      rewrite Hs1. split.
      * intros [[Hx|[-> Hacc]]|[i [pre [Hi [Hx Hacc]]]]].
        -- now left.
        -- right. exists 0, prefix. repeat split. exact Hacc.
        -- right. exists (S i), pre. repeat split; auto.
           cbn [firstn map rev]. rewrite <- app_assoc. cbn [app].
           now rewrite <- Ht.
      * intros [Hx|[[|i] [pre [Hi [Hx Hacc]]]]].
        -- left. now left.
        -- injection Hi as <-. subst x. left. right. split; [reflexivity|].
           exact Hacc.
        -- right. exists i, pre. repeat split; auto.
           cbn [firstn map rev] in Hacc. rewrite <- app_assoc in Hacc.
           cbn [app] in Hacc. now rewrite Ht.
Qed.


(** ** [execute] *)

Lemma run_result_well_formed (split : string -> split_outcome)
    (run : list (list string) -> list string -> subprocess_outcome)
    (history : list (list string)) (c : string) :
  well_formed_result (run_result split run history c).
Proof.
  unfold run_result, well_formed_result, failure.
  destruct (split c) as [args|msg].
  - destruct (run history args) as [p| |msg].
    + destruct (Z.eqb_spec (returncode p) 0) as [E|E].
      * eexists _, true, 0%Z. repeat split; reflexivity.
      * eexists _, false, (returncode p). repeat split; try reflexivity;
          [discriminate|contradiction].
    + eexists _, false, (-1)%Z. repeat split; try reflexivity; discriminate.
    + eexists _, false, (-1)%Z. repeat split; try reflexivity; discriminate.
  - eexists _, false, (-1)%Z. repeat split; try reflexivity; discriminate.
Qed.

Lemma execute_results (split : string -> split_outcome)
    (run : list (list string) -> list string -> subprocess_outcome)
    (curl : list string) :
  forall history,
    Forall2
      (fun c r => well_formed_result r /\
                  (is_curl c = false -> r = invalid_command))
      curl (fst (execute split run curl history)) /\
    snd (execute split run curl history)
      = rev (commands_run split curl) ++ history.
Proof.
  induction curl as [|c curl IH]; intros history; cbn [execute].
  - split; [constructor|reflexivity].
  - unfold commands_run. cbn [flat_map]. fold (commands_run split curl).
    destruct (is_curl c) eqn:Hc; cbn [negb].
    + destruct (IH (match split c with
                    | Split args => args :: history
                    | SplitError _ => history
                    end)) as [Hres Hhist].
      destruct (execute split run curl _) as [results h]. cbn [fst snd] in *.
      split.
      * constructor; [|exact Hres]. split; [|intros H; congruence].
        apply run_result_well_formed.
      * rewrite Hhist. destruct (split c); cbn [app rev].
        -- now rewrite <- app_assoc.
        -- reflexivity.
    + destruct (IH history) as [Hres Hhist].
      destruct (execute split run curl history) as [results h].
      cbn [fst snd app] in *. split; [|exact Hhist].
      constructor; [|exact Hres]. split; [|reflexivity].
      exists [("success", JBool false);
              ("error", JStr "Invalid curl command. Command must start with 'curl'.");
              ("status_code", JNum (-1))], false, (-1)%Z.
      repeat split; try reflexivity; discriminate.
Qed.

(** X27.  [execute] returns one result per command, in order; every result
    reports success exactly with the status code 0, and a command that is
    empty or does not start with "curl" once stripped gets the fixed
    rejection record. *)
Theorem execute_one_result_per_command
    (split : string -> split_outcome)
    (run : list (list string) -> list string -> subprocess_outcome)
    (curl : list string) (history : list (list string)) :
  List.length (fst (execute split run curl history)) = List.length curl /\
  Forall2
    (fun c r => well_formed_result r /\
                (is_curl c = false -> r = invalid_command))
    curl (fst (execute split run curl history)).
Proof.
  destruct (execute_results split run curl history) as [H _].
  split; [|exact H]. symmetry. now apply (Forall2_length H).
Qed.


End Consolidation.

(** * Concrete runs *)

(** ** [normalize_action] on a path that ends in two slashes *)

(** C4, counterexample: "a//" is normalized to "/a/", which ends in "/" and
    is not "/". *)
Lemma normalize_action_trailing_slash_counterexample :
  normalize_action accept_brackets "a//" = "/a/" /\
  ~ (normalize_action accept_brackets "a//" = "/" \/
     endswith (normalize_action accept_brackets "a//") "/" = false).
Proof.
  split; [vm_compute; reflexivity|].
  intros [H|H]; vm_compute in H; discriminate H.
Qed.

Lemma normalize_action_normal_form_witness :
  endswith (action_path accept_brackets "dir/page/") "//" = false /\
  (normalize_action accept_brackets "dir/page/" = "/" \/
   endswith (normalize_action accept_brackets "dir/page/") "/" = false).
Proof.
  split; [reflexivity|].
  apply (normalize_action_normal_form accept_brackets). reflexivity.
Defined.

(** ** Two attack surfaces with the same path *)

(** C3, counterexample: both records have the key "/a"; the index holds the
    description of the second record, not of the first. *)
Lemma description_index_first_seen_counterexample :
  surface_entry accept_brackets
    [("url", JStr "http://t/a"); ("description", JStr "first")]
    = Some ("/a", JStr "first") /\
  surface_entry accept_brackets
    [("url", JStr "http://t/a/"); ("description", JStr "second")]
    = Some ("/a", JStr "second") /\
  build_description_map accept_brackets (JDict two_surfaces)
    = Ok [("/a", JStr "second")].
Proof. repeat split; vm_compute; reflexivity. Qed.

Lemma description_index_last_wins_witness :
  dict_get "/a" [("/a", JStr "second")] = Some (JStr "second").
Proof.
  apply (description_index_last_wins accept_brackets two_surfaces
           [JDict [("url", JStr "http://t/a"); ("description", JStr "first")]]
           []
           [("url", JStr "http://t/a/"); ("description", JStr "second")]).
  - reflexivity.
  - reflexivity.
  - intros later v [].
  - reflexivity.
Defined.

(** ** Attachment over an empty description *)

Lemma attach_description_keeps_feedback_witness :
  exists v',
    dict_get "feedback"
      (attach_description [("/a", JStr "")] "/a"
         [("action", JStr "/a"); ("feedback", JStr "XSS")]) = Some v' /\
    truthy v' = true /\ v' <> JStr "".
Proof.
  apply (attach_description_keeps_feedback [("/a", JStr "")] "/a"
           [("action", JStr "/a"); ("feedback", JStr "XSS")] (JStr "XSS"));
    reflexivity.
Defined.

(** ** A catalog with a repeated form *)

Lemma repeated_catalog_run :
  main_loop accept_brackets [] repeated_catalog [] [] 0
    = Ok (repeated_catalog_output, 2).
Proof. vm_compute. reflexivity. Qed.


Lemma consolidation_frame_witness :
  exists sigs,
    mapM form_signature repeated_catalog = Ok sigs /\
    Forall2
      (fun i g =>
         exists fd gd,
           nth_error repeated_catalog i = Some (JDict fd) /\ g = JDict gd /\
           same_other_fields fd gd /\
           dict_get "method" gd = dict_get "method" fd /\
           dict_get "inputs" gd = dict_get "inputs" fd)
      (first_occurrences sigs) repeated_catalog_output.
Proof.
  apply (consolidation_frame accept_brackets [] repeated_catalog
           repeated_catalog_output 2).
  vm_compute. reflexivity.
Defined.

(** ** Inputs in a different order *)

Lemma signature_invariant_under_input_order_witness :
  form_signature (JDict user_then_password)
    = form_signature (JDict password_then_user) /\
  main_loop accept_brackets []
    ([search_form] ++ JDict user_then_password
       :: [search_form] ++ JDict password_then_user :: []) [] [] 0
  = one_more_duplicate
      (main_loop accept_brackets []
         ([search_form] ++ JDict user_then_password :: [search_form] ++ [])
         [] [] 0).
Proof.
  destruct (signature_invariant_under_input_order accept_brackets
              user_then_password password_then_user eq_refl eq_refl)
    as [_ [Hperm Hdrop]].
  assert (form_signature (JDict user_then_password)
          = form_signature (JDict password_then_user)) as Hsig.
  { apply (Hperm _ _ eq_refl eq_refl). apply perm_swap. }
  split; [exact Hsig|]. apply (Hdrop Hsig).
Defined.

(** ** A second run *)

(** C2, counterexample: the first run turns the action "a//" into "/a/",
    the second run turns "/a/" into "/a". *)
Lemma consolidate_twice_counterexample :
  consolidate accept_brackets double_slash_catalog (JDict [])
    = Ok (double_slash_first_run, 0) /\
  consolidate accept_brackets double_slash_first_run (JDict [])
    = Ok (double_slash_second_run, 0) /\
  consolidate accept_brackets double_slash_first_run (JDict [])
    <> consolidate accept_brackets double_slash_catalog (JDict []).
Proof.
  repeat split; try (vm_compute; reflexivity).
  vm_compute. discriminate.
Qed.

Lemma consolidate_twice_witness :
  consolidate accept_brackets repeated_catalog login_surfaces
    = Ok (annotated_catalog, 2) /\
  consolidate accept_brackets annotated_catalog login_surfaces
    = Ok (annotated_catalog, 0).
Proof.
  split; [vm_compute; reflexivity|].
  apply (consolidate_twice accept_brackets repeated_catalog login_surfaces
           annotated_catalog 2
           [("/login", "POST", [("user", "text", true)]);
            ("/search", "GET", [("q", "text", false)])]).
  - vm_compute. reflexivity.
  - vm_compute. reflexivity.
  - constructor; [simpl; intros [H|H]; [discriminate H|exact H]|].
    constructor; [simpl; tauto|constructor].
  - intros gd a [H|[H|[]]] Ha; injection H as <-; vm_compute in Ha;
      injection Ha as <-; right; reflexivity.
Defined.

(** ** Missing input files *)



(** ** A session whose spider status call fails *)



(** * Concrete runs of the further properties *)

Lemma main_touches_two_files_witness :
  dict_get "scan_results/endpoints.json"
    (out_files (main accept_brackets backup_arguments "20250101_000000"
                  scan_results_files))
  = dict_get "scan_results/endpoints.json" scan_results_files.
Proof.
  apply (main_touches_two_files accept_brackets backup_arguments
           "20250101_000000" scan_results_files);
    vm_compute; discriminate.
Defined.


Lemma main_backup_holds_original_witness :
  exists original,
    dict_get (arg_structure backup_arguments) scan_results_files
      = Some (FileJson original) /\
    load_json
      (out_files (main accept_brackets backup_arguments "20250101_000000"
                    scan_results_files))
      (arg_structure backup_arguments ++ ".bak." ++ "20250101_000000")%string
      = Ok original /\
    In (BackupSaved
          (arg_structure backup_arguments ++ ".bak." ++ "20250101_000000")%string)
      (out_printed (main accept_brackets backup_arguments "20250101_000000"
                      scan_results_files)).
Proof.
  apply (main_backup_holds_original accept_brackets backup_arguments
           "20250101_000000" scan_results_files);
    vm_compute; reflexivity.
Defined.


Lemma main_loop_returns_iff_signatures_witness :
  exists out d,
    main_loop accept_brackets suffix_index repeated_catalog [] [] 0 = Ok (out, d).
Proof.
  apply (proj2 (main_loop_returns_iff_signatures accept_brackets suffix_index
                  repeated_catalog)).
  eexists. vm_compute. reflexivity.
Defined.

Lemma survivors_have_action_and_feedback_witness :
  Forall
    (fun g =>
       exists gd a v,
         g = JDict gd /\
         dict_get "action" gd = Some (JStr a) /\ startswith a "/" = true /\
         dict_get "feedback" gd = Some v)
    repeated_catalog_output.
Proof.
  apply (survivors_have_action_and_feedback accept_brackets []
           repeated_catalog repeated_catalog_output 2).
  vm_compute. reflexivity.
Defined.

Lemma exact_match_has_priority_witness :
  dict_get "feedback"
    [("action", JStr "/login"); ("method", JStr "POST");
     ("inputs", JList [user_input]); ("feedback", JStr "SQLi risk")]
  = Some (JStr "SQLi risk").
Proof.
  apply (exact_match_has_priority accept_brackets
           [("/api/login", JStr "Weak auth"); ("/login", JStr "SQLi risk")]
           login_form _ "/login");
    vm_compute; reflexivity.
Defined.

Lemma fuzzy_match_takes_first_entry_witness :
  dict_get "feedback"
    [("action", JStr "/login"); ("method", JStr "POST");
     ("inputs", JList [user_input]); ("feedback", JStr "Weak auth")]
  = Some (JStr "Weak auth").
Proof.
  apply (fuzzy_match_takes_first_entry accept_brackets suffix_index login_form
           _ "/login" [("/other", JStr "")] [("/login", JStr "")] "/api/login").
  - vm_compute. reflexivity.
  - reflexivity.
  - reflexivity.
  - reflexivity.
  - reflexivity.
  - reflexivity.
  - intros q w [H|[]] _. now injection H as _ <-.
Defined.

Lemma unmatched_form_keeps_feedback_witness :
  dict_get "feedback" [("action", JStr "/login"); ("feedback", JStr "kept")]
  = Some (dict_get_default "feedback" (JStr "")
            [("action", JStr "login/"); ("feedback", JStr "kept")]).
Proof.
  apply (unmatched_form_keeps_feedback accept_brackets
           [("/admin", JStr "Exposed")]
           [("action", JStr "login/"); ("feedback", JStr "kept")]
           [("action", JStr "/login"); ("feedback", JStr "kept")] "/login").
  - vm_compute. reflexivity.
  - reflexivity.
  - intros p v [H|[]] Hrel. injection H as <- <-. vm_compute in Hrel.
    discriminate Hrel.
Defined.

Lemma normalize_action_idempotent_witness :
  normalize_action accept_brackets (normalize_action accept_brackets "dir/page/")
  = normalize_action accept_brackets "dir/page/".
Proof.
  apply (normalize_action_idempotent accept_brackets "dir/page/"). reflexivity.
Defined.

Lemma absolute_action_matches_index_key_witness :
  normalize_action accept_brackets "http://t/login/?next=1"
  = url_path (mkParseResult "http" "t" "/login/" "" "next=1" "").
Proof.
  apply (absolute_action_matches_index_key accept_brackets
           "http://t/login/?next=1").
  - vm_compute. reflexivity.
  - discriminate.
  - discriminate.
Defined.

Lemma form_with_alert_url_gets_description_witness :
  dict_get "action" [("action", JStr "/a"); ("feedback", JStr "second")]
    = Some (JStr (url_path (mkParseResult "http" "t" "/a/" "" "" ""))) /\
  dict_get "feedback" [("action", JStr "/a"); ("feedback", JStr "second")]
    = Some (JStr "second").
Proof.
  apply (form_with_alert_url_gets_description accept_brackets two_surfaces
           [JDict [("url", JStr "http://t/a"); ("description", JStr "first")]]
           []
           [("url", JStr "http://t/a/"); ("description", JStr "second")]
           "http://t/a/" (mkParseResult "http" "t" "/a/" "" "" "")
           (JStr "second") [("/a", JStr "second")]
           [("action", JStr "http://t/a/")]).
  - reflexivity.
  - reflexivity.
  - vm_compute. reflexivity.
  - discriminate.
  - discriminate.
  - reflexivity.
  - reflexivity.
  - intros later v [].
  - vm_compute. reflexivity.
  - reflexivity.
  - vm_compute. reflexivity.
Defined.

Lemma signature_ignores_method_case_witness :
  form_signature (JDict (dict_set "method" (JStr "post") user_then_password))
  = form_signature (JDict (dict_set "method" (JStr " POST ") user_then_password)).
Proof.
  apply (signature_ignores_method_case user_then_password "post" " POST ").
  vm_compute. reflexivity.
Defined.

Lemma details_keep_signature_iff_not_required_witness :
  form_signature (form_data_of true search_page_form)
  = form_signature (form_data_of false search_page_form).
Proof.
  apply (proj2 (details_keep_signature_iff_not_required search_page_form)).
  intros input [H|[]]. subst input. reflexivity.
Defined.

Lemma description_index_skips_bad_urls_witness :
  exists m,
    build_description_map accept_brackets (JDict messy_endpoints) = Ok m /\
    Forall (fun kv => stored_description (snd kv)) m.
Proof.
  apply (proj1 (description_index_skips_bad_urls accept_brackets messy_endpoints
                  [JDict [("url", JNum 7); ("description", JStr "not a URL")];
                   JDict [("description", JStr "no URL")];
                   JDict [("url", JStr "http://t/a")]]
                  [JStr "http://t/b"; JStr "not a url/"]
                  eq_refl
                  (Forall_cons _ (ex_intro _ _ eq_refl)
                     (Forall_cons _ (ex_intro _ _ eq_refl)
                        (Forall_cons _ (ex_intro _ _ eq_refl) (Forall_nil _))))
                  eq_refl)).
Defined.


Lemma run_scan_only_adds_witness :
  exists s',
    run_scan accept_brackets healthy_engine 1 (new_scanner "http://t" "out")
      = Done tt s' /\
    only_grows (new_scanner "http://t" "out") s'.
Proof.
  eexists. split; [vm_compute; reflexivity|].
  apply (run_scan_only_adds accept_brackets healthy_engine 1).
  left. vm_compute. reflexivity.
Defined.

Lemma validate_url_rejects_scheme_offline_witness :
  validate_url accept_brackets healthy_engine (new_scanner "ftp://t/files" "out")
  = Done false (with_log ERROR URLValueError (new_scanner "ftp://t/files" "out")).
Proof.
  apply (validate_url_rejects_scheme_offline accept_brackets healthy_engine).
  intros p Hp. vm_compute in Hp. injection Hp as <-. reflexivity.
Defined.

Lemma failed_validation_is_fatal_witness :
  exists s',
    run_scan accept_brackets missing_pages 1 (new_scanner "http://t" "out")
      = Done tt s' /\
    same_collections (new_scanner "http://t" "out") s' /\
    (trace s' = trace (new_scanner "http://t" "out") \/
     trace s' = HttpGet (target_url (new_scanner "http://t" "out"))
                :: trace (new_scanner "http://t" "out")).
Proof.
  eexists.
  apply (failed_validation_is_fatal accept_brackets missing_pages 1).
  vm_compute. reflexivity.
Defined.

Lemma only_validation_errors_escape_witness :
  exists s',
    validate_url accept_brackets broken_client
      (with_log INFO (StartingScan (target_url (new_scanner "http://t" "out")))
         (new_scanner "http://t" "out"))
      = Raised (OtherError "interrupted") s' /\
    OtherError "interrupted" <> RequestException /\
    OtherError "interrupted" <> ValueError.
Proof.
  eexists.
  apply (only_validation_errors_escape accept_brackets broken_client 1).
  vm_compute. reflexivity.
Defined.

Lemma crawl_collects_spider_results_witness :
  exists s',
    crawl healthy_engine 1 (new_scanner "http://t" "out") = Done tt s' /\
    exists scan_id h urls,
      zap_spider_results healthy_engine h scan_id = Ok urls /\
      (forall u, In u (discovered_endpoints s') <->
                 In u (discovered_endpoints (new_scanner "http://t" "out")) \/
                 In u urls) /\
      (forall u, In u urls -> In (HttpGet u) (trace s')).
Proof.
  eexists. split; [vm_compute; reflexivity|].
  apply (crawl_collects_spider_results accept_brackets healthy_engine 1).
  vm_compute. reflexivity.
Defined.

Lemma monitors_return_at_100_witness :
  exists s' h st v,
    spider_monitor healthy_engine 1 "0" (new_scanner "http://t" "out")
      = Done tt s' /\
    (trace s' = ZapSpiderStatus "0" :: h /\
     zap_spider_status healthy_engine h "0" = Ok st \/
     trace s' = ZapAscanStatus "0" :: h /\
     zap_ascan_status healthy_engine h "0" = Ok st) /\
    py_int st = Ok v /\ (100 <= v)%Z.
Proof.
  eexists.
  destruct (monitors_return_at_100 healthy_engine 1 "0"
              (new_scanner "http://t" "out") _
              (or_introl (eq_refl : spider_monitor healthy_engine 1 "0"
                                      (new_scanner "http://t" "out")
                                    = Done tt _)))
    as [h [st [v H]]].
  exists h, st, v. split; [reflexivity|exact H].
Defined.



